(** * mindstand/fsm: the stepping engine, embedded and verified

    The repository drives a declared finite state machine for many
    persistent actors ("traversers").  Sources embedded here:

    - [fsm.go]: [StartState], [State], [BuildState], [StateMachine],
      [StateMap] and the collaborator interfaces [Emitter], [Store],
      [Traverser];
    - the engine file with [TriggerState] (module [Latest]):
      [GetStateMap], [TriggerState], [checkStateExitable], [Step],
      [getTraverser], [performEntryAction];
    - the engine file with [EnqueueStateToUser] (module [Queued]), whose
      [Step] consults the queue of deferred requests;
    - the earliest engine file (module [Legacy]).

    Collaborators are Go interface values; an interface value is modelled
    as a record of closures acting on an abstract world [W] (store
    contents, emitter output, clock, package variables).  Engine code is
    written in a state-and-error monad over that world which additionally
    keeps the list of calls the engine itself issues, in order. *)

From stdpp Require Import gmap strings list fin_maps.
From Stdlib Require Import ZArith Lia.

Set Warnings "-register-all,-clear-no-such-hyp".

Local Open Scope Z_scope.
Local Open Scope string_scope.

(** ** Errors

    A Go [error] is either a value handed back by a collaborator or the
    result of [fmt.Errorf]: the formatted text alone ([Errorf]) or, with
    [%w], the text up to the verb and the wrapped cause ([Wrapf]). *)
Inductive error : Type :=
| ErrCollab (msg : string)
| Errorf (msg : string)
| Wrapf (msg : string) (cause : error).

(** What a call into a collaborator hands back: a value or a non-nil
    error. *)
Inductive result (A : Type) : Type :=
| Success (a : A)
| Failure (e : error).
Arguments Success {A} a.
Arguments Failure {A} e.

(** How a call of an engine function ends: it returns normally, returns
    a non-nil error, panics (calling the nil function a map lookup
    yields for a missing key), or has not returned within the recursion
    budget given to the model. *)
Inductive outcome (A : Type) : Type :=
| Ok (a : A)
| Err (e : error)
| Panic
| OutOfFuel.
Arguments Ok {A} a.
Arguments Err {A} e.
Arguments Panic {A}.
Arguments OutOfFuel {A}.

(** ** time.Time and time.Duration

    An instant is the number of nanoseconds since the zero [time.Time];
    a duration is a number of nanoseconds.  [time.Now().UTC()] carries
    no monotonic reading, so [After] compares wall-clock instants. *)
Definition IsZero (t : Z) : bool := Z.eqb t 0.
Definition Add (t d : Z) : Z := t + d.
Definition After (t u : Z) : bool := Z.ltb u t.
Definition Minute : Z := 60 * 1000000000.

(** The initial value of the package variable [InputTimeout]. *)
Definition DefaultInputTimeout : Z := 15 * Minute.

(** [const StartState = "start"] and [const QueueInfoKey = "queue_info"]. *)
Definition StartState : string := "start".
Definition QueueInfoKey : string := "queue_info".

(** ** fsm.go: states and collaborator interfaces *)
Section Interfaces.
Context {W Payload Intent : Type}.

(** A collaborator method returning [(A, error)]. *)
Definition Eff (A : Type) : Type := W -> result A * W.

(** [type State struct].  [Entry] returns [error]; [ValidIntents] and
    [Transition] have no error result; a nil [*State] from
    [Transition] is [None]. *)
Inductive State : Type := mkState {
  Slug : string;
  IsExitable : bool;
  Entry : bool -> Eff unit;
  ValidIntents : W -> list Intent * W;
  Transition : Intent -> gmap string string -> W -> option State * W
}.

(** [type Emitter interface]. *)
Record Emitter : Type := mkEmitter {
  Emit : Payload -> Eff unit
}.

(** [type Traverser interface], as declared in fsm.go. *)
Record Traverser : Type := mkTraverser {
  UUID : Eff string;
  SetUUID : string -> Eff unit;
  Platform : Eff string;
  SetPlatform : string -> Eff unit;
  GetLastUpdateTime : Eff Z;
  SetLastUpdateTime : Z -> Eff unit;
  CurrentState : Eff string;
  SetCurrentState : string -> Eff unit;
  AddQueuedState : string -> Payload -> Eff unit;
  DequeueQueuedState : Eff unit;
  Upsert : string -> Payload -> Eff unit;
  Fetch : string -> Eff Payload;
  Delete : string -> Eff unit
}.

(** The [Traverser] of the engine file with [EnqueueStateToUser]: that
    file calls [EnqueueQueuedState] and a four-valued
    [DequeueQueuedState]; both signatures are read off their call
    sites, the remaining methods are those of fsm.go. *)
Record QTraverser : Type := mkQTraverser {
  qbase : Traverser;
  EnqueueQueuedState : string -> Payload -> Eff unit;
  DequeueQueuedState4 : Eff (string * Payload * bool)
}.

(** [type Store interface], over either traverser interface. *)
Record Store (Tr : Type) : Type := mkStore {
  FetchTraverser : string -> Eff Tr;
  CreateTraverser : string -> Eff Tr
}.

(** [type BuildState func(Emitter, Traverser) *State]; either argument
    may be nil.  A factory only builds the struct: it is a function of
    its two arguments. *)
Definition BuildState (Tr : Type) : Type :=
  option Emitter -> option Tr -> State.

(** [InputTransformer]: classifies raw input against the valid
    intents; a nil intent is [None].  Its declaration and that of
    [Intent] are not among the sources: the signature is the one of its
    call in [Step], and [Intent] is left abstract. *)
Definition InputTransformer : Type :=
  Payload -> list Intent -> W -> (option Intent * gmap string string) * W.

(** *** Calls issued by the engine *)
Inductive Event : Type :=
| EvFetchTraverser (uuid : string)
| EvCreateTraverser (uuid : string)
| EvCurrentState
| EvSetCurrentState (slug : string)
| EvGetLastUpdateTime
| EvSetLastUpdateTime (t : Z)
| EvSetPlatform (platform : string)
| EvAddQueuedState (target : string) (info : Payload)
| EvEnqueueQueuedState (target : string) (info : Payload)
| EvDequeueQueuedState
| EvUpsert (key : string) (value : Payload)
| EvNow
| EvEntry (slug : string) (isReentry : bool)
| EvValidIntents (slug : string)
| EvInputTransformer (input : Payload)
| EvTransition (slug : string) (intent : Intent).

(** The engine's view: the world and the calls issued so far, oldest
    first. *)
Record EState : Type := mkES {
  world : W;
  calls : list Event
}.

Definition M (A : Type) : Type := EState -> outcome A * EState.

Definition ret {A} (a : A) : M A := fun s => (Ok a, s).

Definition bind {A B} (m : M A) (k : A -> M B) : M B :=
  fun s =>
    match m s with
    | (Ok a, s') => k a s'
    | (Err e, s') => (Err e, s')
    | (Panic, s') => (Panic, s')
    | (OutOfFuel, s') => (OutOfFuel, s')
    end.

(** [return fmt.Errorf(...)] / [return err]. *)
Definition fail {A} (e : error) : M A := fun s => (Err e, s).

Definition panic {A} : M A := fun s => (Panic, s).

Definition out_of_fuel {A} : M A := fun s => (OutOfFuel, s).

(** [x, err := c.method(...)]: run the method on the world, record
    the call. *)
Definition call {A} (ev : Event) (op : Eff A) : M A :=
  fun s =>
    match op (world s) with
    | (Success a, w') => (Ok a, mkES w' (calls s ++ [ev]))
    | (Failure e, w') => (Err e, mkES w' (calls s ++ [ev]))
    end.

(** A call of a function without error result. *)
Definition callT {A} (ev : Event) (op : W -> A * W) : M A :=
  fun s => let '(a, w') := op (world s) in (Ok a, mkES w' (calls s ++ [ev])).

(** Reading a package variable: no call is issued. *)
Definition readVar {A} (var : W -> A) : M A :=
  fun s => (Ok (var (world s)), s).

(** [if err != nil { return fmt.Errorf(msg + "%w", err) }]. *)
Definition wrapf {A} (msg : string) (m : M A) : M A :=
  fun s =>
    match m s with
    | (Err e, s') => (Err (Wrapf msg e), s')
    | r => r
    end.

(** [fmt.Errorf("state (%s) does not exist", slug)]. *)
Definition errNoState (slug : string) : error :=
  Errorf ("state (" +:+ slug +:+ ") does not exist").

(** [type StateMachine []BuildState] and
    [type StateMap map[string]BuildState]. *)
Definition StateMachine (Tr : Type) : Type := list (BuildState Tr).

(** [GetStateMap]: every factory is invoked with nil collaborators and
    stored under the slug it reports; a later factory with the same
    slug replaces the earlier one. *)
Definition GetStateMap {Tr} (stateMachine : StateMachine Tr)
  : gmap string (BuildState Tr) :=
  foldl (fun stateMap buildState =>
           <[ Slug (buildState None None) := buildState ]> stateMap)
        ∅ stateMachine.

(** The slugs a machine declares, in declaration order. *)
Definition declared_slugs {Tr} (stateMachine : StateMachine Tr) : list string :=
  (fun buildState => Slug (buildState None None)) <$> stateMachine.

(** Compilation as the specification words it: a second factory
    reporting an already present slug is rejected with a duplicate
    slug error.  Kept apart from [GetStateMap] to compare the two. *)
Fixpoint compile_rejecting {Tr} (acc : gmap string (BuildState Tr))
         (stateMachine : StateMachine Tr)
  : result (gmap string (BuildState Tr)) :=
  match stateMachine with
  | [] => Success acc
  | buildState :: rest =>
      let slug := Slug (buildState None None) in
      match acc !! slug with
      | Some _ => Failure (Errorf ("duplicate slug (" +:+ slug +:+ ")"))
      | None => compile_rejecting (<[ slug := buildState ]> acc) rest
      end
  end.

End Interfaces.

Arguments State : clear implicits.
Arguments Emitter : clear implicits.
Arguments Traverser : clear implicits.
Arguments QTraverser : clear implicits.
Arguments Store : clear implicits.
Arguments BuildState : clear implicits.
Arguments StateMachine : clear implicits.
Arguments InputTransformer : clear implicits.
Arguments Event : clear implicits.
Arguments EState : clear implicits.
Arguments Eff : clear implicits.
Arguments M : clear implicits.

Declare Scope engine_scope.
Delimit Scope engine_scope with engine.
Notation "x <- m ;; k" := (bind m (fun x => k))
  (at level 100, m at next level, right associativity) : engine_scope.

Local Open Scope engine_scope.

(** ** The engine file with [TriggerState] *)
Module Latest.
Section Engine.
Context {W Payload Intent : Type}.

(** [time.Now().UTC()]: reading the clock is a call into the world. *)
Variable Now : W -> Z * W.

(** [var InputTimeout = 15 * time.Minute]: a package variable that may
    be overridden, so its current value is read from the world. *)
Variable InputTimeout : W -> Z.

Abbreviation State := (State W Intent).
Abbreviation Emitter := (Emitter W Payload).
Abbreviation Traverser := (Traverser W Payload).
Abbreviation Store := (Store W Traverser).
Abbreviation BuildState := (BuildState W Payload Intent Traverser).
Abbreviation StateMap := (gmap string BuildState).
Abbreviation InputTransformer := (InputTransformer W Payload Intent).
Abbreviation M := (M W Payload Intent).

(** [checkStateExitable]: the factory is invoked with nil
    collaborators to read the flag. *)
Definition checkStateExitable (state : string) (stateMap : StateMap)
  : bool * bool :=
  match stateMap !! state with
  | None => (false, false)
  | Some stateObj => (IsExitable (stateObj None None), true)
  end.

(** [getTraverser]: fetch, and on any fetch error create the record,
    put it in the start state, stamp it and record the platform. *)
Definition getTraverser (platform uuid : string) (store : Store)
  : M (Traverser * bool) :=
  fun s =>
    match call (EvFetchTraverser uuid) (FetchTraverser _ store uuid) s with
    | (Ok traverser, s1) => (Ok (traverser, false), s1)
    | (Err _, s1) =>
        (traverser <- wrapf ("failed to create traverser for id (" +:+ uuid +:+ "), ")
                        (call (EvCreateTraverser uuid) (CreateTraverser _ store uuid)) ;;
         _ <- wrapf "failed to set current state to start state "
                (call (EvSetCurrentState StartState)
                      (SetCurrentState traverser StartState)) ;;
         now <- callT EvNow Now ;;
         _ <- wrapf "failed to set last update time, "
                (call (EvSetLastUpdateTime now) (SetLastUpdateTime traverser now)) ;;
         _ <- wrapf "failed to set platform "
                (call (EvSetPlatform platform) (SetPlatform traverser platform)) ;;
         ret (traverser, true)) s1
    | (Panic, s1) => (Panic, s1)
    | (OutOfFuel, s1) => (OutOfFuel, s1)
    end.

(** [performEntryAction]: run the entry behaviour, re-read the current
    state, and recurse into the state it names when that differs from
    the slug just entered.  The source recursion has no bound; [fuel]
    is the number of nested invocations the model follows. *)
Fixpoint performEntryAction (fuel : nat) (state : State)
         (emitter : option Emitter) (traverser : Traverser)
         (stateMap : StateMap) : M unit :=
  match fuel with
  | O => out_of_fuel
  | S fuel' =>
      _ <- call (EvEntry (Slug state) false) (Entry state false) ;;
      currentState <- wrapf "failed to get the traversers current state, "
                        (call EvCurrentState (CurrentState traverser)) ;;
      if decide (currentState = Slug state) then ret tt
      else
        match stateMap !! currentState with
        | None => fail (errNoState currentState)
        | Some shift =>
            let shiftedState := shift emitter (Some traverser) in
            wrapf "failed to perform recursive entry action, "
              (performEntryAction fuel' shiftedState emitter traverser stateMap)
        end
  end.

(** The block of [Step] under its [// Transition] comment: classify
    the input against the active state's valid intents, then either
    move to the state the transition names or re-enter the active
    state. *)
Definition transitionBlock (fuel : nat) (currentState : State)
           (input : Payload) (inputTransformer : InputTransformer)
           (emitter : option Emitter) (traverser : Traverser)
           (stateMap : StateMap) : M unit :=
  validIntents <- callT (EvValidIntents (Slug currentState))
                    (ValidIntents currentState) ;;
  classified <- callT (EvInputTransformer input)
                  (inputTransformer input validIntents) ;;
  match classified with
  | (Some intent, params) =>
      next <- callT (EvTransition (Slug currentState) intent)
                (Transition currentState intent params) ;;
      match next with
      | Some newState =>
          _ <- wrapf "failed to set current state during transition, "
                 (call (EvSetCurrentState (Slug newState))
                       (SetCurrentState traverser (Slug newState))) ;;
          now <- callT EvNow Now ;;
          _ <- wrapf "failed to set last update time, "
                 (call (EvSetLastUpdateTime now) (SetLastUpdateTime traverser now)) ;;
          wrapf "failed to perform action entry during transition, "
            (performEntryAction fuel newState emitter traverser stateMap)
      | None =>
          wrapf "failed to enter current state, "
            (call (EvEntry (Slug currentState) true) (Entry currentState true))
      end
  | (None, _) =>
      wrapf "failed to enter current state, "
        (call (EvEntry (Slug currentState) true) (Entry currentState true))
  end.

(** [Step]. *)
Definition Step (fuel : nat) (platform uuid : string) (input : Payload)
           (inputTransformer : InputTransformer) (store : Store)
           (emitter : option Emitter) (stateMap : StateMap) : M unit :=
  got <- wrapf ("traverser with id (" +:+ uuid +:+ ") not found, ")
           (getTraverser platform uuid store) ;;
  let '(traverser, newTraverser) := got in
  traverserCurState <- wrapf "failed to get current state from traverser "
                         (call EvCurrentState (CurrentState traverser)) ;;
  match stateMap !! traverserCurState with
  | None => fail (errNoState traverserCurState)
  | Some stateObj =>
      let currentState := stateObj emitter (Some traverser) in
      _ <- (if newTraverser
            then wrapf "failed to perform action entry, "
                   (performEntryAction fuel currentState emitter traverser stateMap)
            else ret tt) ;;
      transitionBlock fuel currentState input inputTransformer
                      emitter traverser stateMap
  end.

(** [TriggerState] from its second statement on: what is done once the
    traverser has been obtained. *)
Definition triggerTraverser (fuel : nat) (traverser : Traverser)
           (targetState : string) (input : Payload)
           (emitter : option Emitter) (stateMap : StateMap) : M unit :=
  curState <- wrapf "failed to get current state from traverser, "
                (call EvCurrentState (CurrentState traverser)) ;;
  let '(canExit, ok) := checkStateExitable curState stateMap in
  if negb ok then fail (errNoState curState)
  else
    let enqueue : M unit :=
      wrapf "failed to enqueue state, "
        (call (EvAddQueuedState targetState input)
              (AddQueuedState traverser targetState input)) in
    if negb canExit then enqueue
    else
      lastUpdate <- wrapf "failed to get last update time, "
                      (call EvGetLastUpdateTime (GetLastUpdateTime traverser)) ;;
      let handle : M unit :=
        match stateMap !! targetState with
        | None => fail (errNoState targetState)
        | Some stateObj =>
            _ <- wrapf "failed to set target state, "
                   (call (EvSetCurrentState targetState)
                         (SetCurrentState traverser targetState)) ;;
            now <- callT EvNow Now ;;
            _ <- wrapf "failed to set last updated time, "
                   (call (EvSetLastUpdateTime now) (SetLastUpdateTime traverser now)) ;;
            _ <- wrapf "failed to upsert queue info, "
                   (call (EvUpsert QueueInfoKey input)
                         (Upsert traverser QueueInfoKey input)) ;;
            let currentState := stateObj emitter (Some traverser) in
            wrapf "failed to perform entry action triggered state, "
              (performEntryAction fuel currentState emitter traverser stateMap)
        end in
      if negb (IsZero lastUpdate) then
        now <- callT EvNow Now ;;
        timeout <- readVar InputTimeout ;;
        if negb (After now (Add lastUpdate timeout))
        then enqueue
        else handle
      else handle.

(** [TriggerState]: the traverser comes from [getTraverser], whose
    second result is discarded. *)
Definition TriggerState (fuel : nat) (platform uuid targetState : string)
           (input : Payload) (inputTransformer : InputTransformer)
           (store : Store) (emitter : option Emitter) (stateMap : StateMap)
  : M unit :=
  got <- wrapf ("traverser with id (" +:+ uuid +:+ ") not found, ")
           (getTraverser platform uuid store) ;;
  let '(traverser, _) := got in
  triggerTraverser fuel traverser targetState input emitter stateMap.

End Engine.
End Latest.

(** ** The engine file with [EnqueueStateToUser]

    Map lookups are not checked here: [stateMap[slug](emitter, traverser)]
    on a missing slug calls a nil function and panics. *)
Module Queued.
Section Engine.
Context {W Payload Intent : Type}.

Abbreviation State := (State W Intent).
Abbreviation Emitter := (Emitter W Payload).
Abbreviation Traverser := (QTraverser W Payload).
Abbreviation Store := (Store W Traverser).
Abbreviation BuildState := (BuildState W Payload Intent Traverser).
Abbreviation StateMap := (gmap string BuildState).
Abbreviation InputTransformer := (InputTransformer W Payload Intent).
Abbreviation M := (M W Payload Intent).

(** The fetch-or-create prologue shared, statement for statement, by
    [EnqueueStateToUser] and [Step] of this file (no timestamp). *)
Definition fetchOrCreate (platform uuid : string) (store : Store)
  : M (Traverser * bool) :=
  fun s =>
    match call (EvFetchTraverser uuid) (FetchTraverser _ store uuid) s with
    | (Ok traverser, s1) => (Ok (traverser, false), s1)
    | (Err _, s1) =>
        (traverser <- wrapf ("failed to create traverser for id (" +:+ uuid +:+ "), ")
                        (call (EvCreateTraverser uuid) (CreateTraverser _ store uuid)) ;;
         _ <- wrapf "failed to set current state to start state "
                (call (EvSetCurrentState StartState)
                      (SetCurrentState (qbase traverser) StartState)) ;;
         _ <- wrapf "failed to set platform "
                (call (EvSetPlatform platform)
                      (SetPlatform (qbase traverser) platform)) ;;
         ret (traverser, true)) s1
    | (Panic, s1) => (Panic, s1)
    | (OutOfFuel, s1) => (OutOfFuel, s1)
    end.

(** [EnqueueStateToUser]. *)
Definition EnqueueStateToUser (platform uuid state : string)
           (input : Payload) (store : Store) : M unit :=
  got <- fetchOrCreate platform uuid store ;;
  wrapf "failed to enqueue state to user, "
    (call (EvEnqueueQueuedState state input)
          (EnqueueQueuedState (fst got) state input)).

(** [performEntryAction] of this file. *)
Fixpoint performEntryAction (fuel : nat) (state : State)
         (emitter : option Emitter) (traverser : Traverser)
         (stateMap : StateMap) : M unit :=
  match fuel with
  | O => out_of_fuel
  | S fuel' =>
      _ <- call (EvEntry (Slug state) false) (Entry state false) ;;
      currentState <- wrapf "failed to get the traversers current state, "
                        (call EvCurrentState (CurrentState (qbase traverser))) ;;
      if decide (currentState = Slug state) then ret tt
      else
        match stateMap !! currentState with
        | None => panic
        | Some shift =>
            let shiftedState := shift emitter (Some traverser) in
            wrapf "failed to perform recursive entry action, "
              (performEntryAction fuel' shiftedState emitter traverser stateMap)
        end
  end.

(** The [// Transition] block of this file's [Step]: no timestamp is
    written. *)
Definition transitionBlock (fuel : nat) (currentState : State)
           (input : Payload) (inputTransformer : InputTransformer)
           (emitter : option Emitter) (traverser : Traverser)
           (stateMap : StateMap) : M unit :=
  validIntents <- callT (EvValidIntents (Slug currentState))
                    (ValidIntents currentState) ;;
  classified <- callT (EvInputTransformer input)
                  (inputTransformer input validIntents) ;;
  match classified with
  | (Some intent, params) =>
      next <- callT (EvTransition (Slug currentState) intent)
                (Transition currentState intent params) ;;
      match next with
      | Some newState =>
          _ <- wrapf "failed to set current state during transition, "
                 (call (EvSetCurrentState (Slug newState))
                       (SetCurrentState (qbase traverser) (Slug newState))) ;;
          wrapf "failed to perform action entry during transition, "
            (performEntryAction fuel newState emitter traverser stateMap)
      | None =>
          wrapf "failed to enter current state, "
            (call (EvEntry (Slug currentState) true) (Entry currentState true))
      end
  | (None, _) =>
      wrapf "failed to enter current state, "
        (call (EvEntry (Slug currentState) true) (Entry currentState true))
  end.

(** [Step] of this file: an actor that already existed first has one
    deferred request dequeued and, when there is one, applied. *)
Definition Step (fuel : nat) (platform uuid : string) (input : Payload)
           (inputTransformer : InputTransformer) (store : Store)
           (emitter : option Emitter) (stateMap : StateMap) : M unit :=
  got <- fetchOrCreate platform uuid store ;;
  let '(traverser, newTraverser) := got in
  _ <- (if negb newTraverser then
          dequeued <- wrapf "failed to check queued states, "
                        (call EvDequeueQueuedState
                              (DequeueQueuedState4 traverser)) ;;
          let '(state, info, ok) := dequeued in
          if ok then
            _ <- wrapf ("failed to set current state from queued state provided (state="
                        +:+ state +:+ "), ")
                   (call (EvSetCurrentState state)
                         (SetCurrentState (qbase traverser) state)) ;;
            wrapf "failed to upsert queue info, "
              (call (EvUpsert QueueInfoKey info)
                    (Upsert (qbase traverser) QueueInfoKey info))
          else ret tt
        else ret tt) ;;
  traverserCurState <- wrapf "failed to get current state from traverser "
                         (call EvCurrentState (CurrentState (qbase traverser))) ;;
  match stateMap !! traverserCurState with
  | None => panic
  | Some stateObj =>
      let currentState := stateObj emitter (Some traverser) in
      _ <- (if newTraverser
            then wrapf "failed to perform action entry, "
                   (performEntryAction fuel currentState emitter traverser stateMap)
            else ret tt) ;;
      transitionBlock fuel currentState input inputTransformer
                      emitter traverser stateMap
  end.

End Engine.
End Queued.

(** ** The earliest engine file

    As in [Queued], map lookups are unchecked.  The error of
    [CreateTraverser] is discarded ([traverser, _ = ...]); a failing
    create leaves the nil traverser, and the method call that follows
    panics. *)
Module Legacy.
Section Engine.
Context {W Payload Intent : Type}.

Abbreviation State := (State W Intent).
Abbreviation Emitter := (Emitter W Payload).
Abbreviation Traverser := (Traverser W Payload).
Abbreviation Store := (Store W Traverser).
Abbreviation BuildState := (BuildState W Payload Intent Traverser).
Abbreviation StateMap := (gmap string BuildState).
Abbreviation InputTransformer := (InputTransformer W Payload Intent).
Abbreviation M := (M W Payload Intent).

(** [performEntryAction] of this file. *)
Fixpoint performEntryAction (fuel : nat) (state : State)
         (emitter : option Emitter) (traverser : Traverser)
         (stateMap : StateMap) : M unit :=
  match fuel with
  | O => out_of_fuel
  | S fuel' =>
      _ <- call (EvEntry (Slug state) false) (Entry state false) ;;
      currentState <- wrapf "failed to get the traversers current state, "
                        (call EvCurrentState (CurrentState traverser)) ;;
      if decide (currentState = Slug state) then ret tt
      else
        match stateMap !! currentState with
        | None => panic
        | Some shift =>
            let shiftedState := shift emitter (Some traverser) in
            wrapf "failed to perform recursive entry action, "
              (performEntryAction fuel' shiftedState emitter traverser stateMap)
        end
  end.

(** The [// Transition] block of this file's [Step]. *)
Definition transitionBlock (fuel : nat) (currentState : State)
           (input : Payload) (inputTransformer : InputTransformer)
           (emitter : option Emitter) (traverser : Traverser)
           (stateMap : StateMap) : M unit :=
  validIntents <- callT (EvValidIntents (Slug currentState))
                    (ValidIntents currentState) ;;
  classified <- callT (EvInputTransformer input)
                  (inputTransformer input validIntents) ;;
  match classified with
  | (Some intent, params) =>
      next <- callT (EvTransition (Slug currentState) intent)
                (Transition currentState intent params) ;;
      match next with
      | Some newState =>
          _ <- wrapf "failed to set current state during transition, "
                 (call (EvSetCurrentState (Slug newState))
                       (SetCurrentState traverser (Slug newState))) ;;
          wrapf "failed to perform action entry during transition, "
            (performEntryAction fuel newState emitter traverser stateMap)
      | None =>
          wrapf "failed to enter current state, "
            (call (EvEntry (Slug currentState) true) (Entry currentState true))
      end
  | (None, _) =>
      wrapf "failed to enter current state, "
        (call (EvEntry (Slug currentState) true) (Entry currentState true))
  end.

(** [Step] of this file. *)
Definition Step (fuel : nat) (platform uuid : string) (input : Payload)
           (inputTransformer : InputTransformer) (store : Store)
           (emitter : option Emitter) (stateMap : StateMap) : M unit :=
  got <- (fun s =>
            match call (EvFetchTraverser uuid) (FetchTraverser _ store uuid) s with
            | (Ok traverser, s1) => (Ok (traverser, false), s1)
            | (Err _, s1) =>
                match call (EvCreateTraverser uuid) (CreateTraverser _ store uuid) s1 with
                | (Ok traverser, s2) =>
                    (_ <- wrapf "failed to set current state to start state "
                           (call (EvSetCurrentState StartState)
                                 (SetCurrentState traverser StartState)) ;;
                     _ <- wrapf "failed to set platform "
                            (call (EvSetPlatform platform)
                                  (SetPlatform traverser platform)) ;;
                     ret (traverser, true)) s2
                | (_, s2) => (Panic, s2)
                end
            | (Panic, s1) => (Panic, s1)
            | (OutOfFuel, s1) => (OutOfFuel, s1)
            end) ;;
  let '(traverser, newTraverser) := got in
  traverserCurState <- wrapf "failed to get current state from traverser "
                         (call EvCurrentState (CurrentState traverser)) ;;
  match stateMap !! traverserCurState with
  | None => panic
  | Some stateObj =>
      let currentState := stateObj emitter (Some traverser) in
      _ <- (if newTraverser
            then wrapf "failed to perform action entry, "
                   (performEntryAction fuel currentState emitter traverser stateMap)
            else ret tt) ;;
      transitionBlock fuel currentState input inputTransformer
                      emitter traverser stateMap
  end.

End Engine.
End Legacy.

(** ** An in-memory store, clock and emitter

    A reference implementation of the collaborator interfaces, used to
    run the engine on concrete machines.  Payloads and intents are
    strings. *)
Module Mem.

Record Actor : Type := mkActor {
  aPlatform : string;
  aState : string;
  aLastUpdate : Z;
  aQueue : list (string * string);
  aData : gmap string string
}.

Record World : Type := mkWorld {
  actors : gmap string Actor;
  clock : Z;
  inputTimeout : Z;
  outbox : list string
}.

Definition blank : Actor := mkActor "" "" 0 [] ∅.

Definition errNoActor : error := ErrCollab "no such traverser".

(** Reading the clock advances it by one nanosecond. *)
Definition Now (w : World) : Z * World :=
  (clock w, mkWorld (actors w) (clock w + 1) (inputTimeout w) (outbox w)).

Definition InputTimeout (w : World) : Z := inputTimeout w.

Definition read {A} (uuid : string) (get : Actor -> A) : Eff World A :=
  fun w =>
    match actors w !! uuid with
    | Some a => (Success (get a), w)
    | None => (Failure errNoActor, w)
    end.

Definition update (uuid : string) (set : Actor -> Actor) : Eff World unit :=
  fun w =>
    match actors w !! uuid with
    | Some a =>
        (Success tt,
         mkWorld (<[ uuid := set a ]> (actors w)) (clock w) (inputTimeout w) (outbox w))
    | None => (Failure errNoActor, w)
    end.

Definition traverser (uuid : string) : Traverser World string :=
  {| UUID := read uuid (fun _ => uuid);
     SetUUID := fun _ => update uuid id;
     Platform := read uuid aPlatform;
     SetPlatform := fun p =>
       update uuid (fun a => mkActor p (aState a) (aLastUpdate a) (aQueue a) (aData a));
     GetLastUpdateTime := read uuid aLastUpdate;
     SetLastUpdateTime := fun t =>
       update uuid (fun a => mkActor (aPlatform a) (aState a) t (aQueue a) (aData a));
     CurrentState := read uuid aState;
     SetCurrentState := fun slug =>
       update uuid (fun a => mkActor (aPlatform a) slug (aLastUpdate a) (aQueue a) (aData a));
     AddQueuedState := fun target info =>
       update uuid (fun a => mkActor (aPlatform a) (aState a) (aLastUpdate a)
                                     (aQueue a ++ [(target, info)]) (aData a));
     DequeueQueuedState :=
       update uuid (fun a => mkActor (aPlatform a) (aState a) (aLastUpdate a)
                                     (tail (aQueue a)) (aData a));
     Upsert := fun key value =>
       update uuid (fun a => mkActor (aPlatform a) (aState a) (aLastUpdate a)
                                     (aQueue a) (<[ key := value ]> (aData a)));
     Fetch := fun key w =>
       match actors w !! uuid with
       | Some a =>
           match aData a !! key with
           | Some v => (Success v, w)
           | None => (Failure (ErrCollab "no such key"), w)
           end
       | None => (Failure errNoActor, w)
       end;
     Delete := fun key =>
       update uuid (fun a => mkActor (aPlatform a) (aState a) (aLastUpdate a)
                                     (aQueue a) (delete key (aData a)))
  |}.

(** The same record seen through the queue-capable interface: a FIFO
    queue whose head [DequeueQueuedState] removes and returns. *)
Definition qtraverser (uuid : string) : QTraverser World string :=
  {| qbase := traverser uuid;
     EnqueueQueuedState := AddQueuedState (traverser uuid);
     DequeueQueuedState4 := fun w =>
       match actors w !! uuid with
       | Some a =>
           match aQueue a with
           | (state, info) :: rest =>
               (Success (state, info, true),
                mkWorld (<[ uuid := mkActor (aPlatform a) (aState a) (aLastUpdate a)
                                            rest (aData a) ]> (actors w))
                        (clock w) (inputTimeout w) (outbox w))
           | [] => (Success ("", "", false), w)
           end
       | None => (Failure errNoActor, w)
       end
  |}.

Definition fetch {Tr} (handle : string -> Tr) (uuid : string) : Eff World Tr :=
  fun w =>
    match actors w !! uuid with
    | Some _ => (Success (handle uuid), w)
    | None => (Failure (ErrCollab "traverser not found"), w)
    end.

Definition create {Tr} (handle : string -> Tr) (uuid : string) : Eff World Tr :=
  fun w =>
    (Success (handle uuid),
     mkWorld (<[ uuid := blank ]> (actors w)) (clock w) (inputTimeout w) (outbox w)).

Definition store : Store World (Traverser World string) :=
  {| FetchTraverser := fetch traverser; CreateTraverser := create traverser |}.

Definition qstore : Store World (QTraverser World string) :=
  {| FetchTraverser := fetch qtraverser; CreateTraverser := create qtraverser |}.

(** A store whose traversers refuse to record the platform; every
    other method is that of [traverser]. *)
Definition platformless (uuid : string) : Traverser World string :=
  {| UUID := UUID (traverser uuid);
     SetUUID := SetUUID (traverser uuid);
     Platform := Platform (traverser uuid);
     SetPlatform := fun _ w => (Failure (ErrCollab "platform is read-only"), w);
     GetLastUpdateTime := GetLastUpdateTime (traverser uuid);
     SetLastUpdateTime := SetLastUpdateTime (traverser uuid);
     CurrentState := CurrentState (traverser uuid);
     SetCurrentState := SetCurrentState (traverser uuid);
     AddQueuedState := AddQueuedState (traverser uuid);
     DequeueQueuedState := DequeueQueuedState (traverser uuid);
     Upsert := Upsert (traverser uuid);
     Fetch := Fetch (traverser uuid);
     Delete := Delete (traverser uuid) |}.

Definition platformlessStore : Store World (Traverser World string) :=
  {| FetchTraverser := fetch platformless; CreateTraverser := create platformless |}.

Definition emitter : Emitter World string :=
  {| Emit := fun payload w =>
       (Success tt,
        mkWorld (actors w) (clock w) (inputTimeout w) (outbox w ++ [payload])) |}.

(** The transformer of the fixtures: the input is an intent exactly
    when it is listed among the valid intents. *)
Definition transformer : InputTransformer World string string :=
  fun input validIntents w =>
    (if bool_decide (input ∈ validIntents) then (Some input, ∅) else (None, ∅), w).

(** *** Fixture states

    A state with a fixed slug and flag whose entry behaviour emits its
    slug and, when [redirect] names a slug, moves the actor there. *)
Section Fixtures.
Context {Tr : Type} (base : Tr -> Traverser World string).

Definition entryOf (slug : string) (redirect : option string)
         (em : option (Emitter World string)) (tr : option Tr)
: bool -> Eff World unit :=
fun isReentry w =>
  match em, tr with
  | Some e, Some t =>
      match Emit e slug w with
      | (Success _, w1) =>
          match redirect with
          | Some next =>
              if isReentry then (Success tt, w1)
              else SetCurrentState (base t) next w1
          | None => (Success tt, w1)
          end
      | (Failure err, w1) => (Failure err, w1)
      end
  | _, _ => (Failure (ErrCollab "nil collaborator"), w)
  end.

(** A state without transitions. *)
Definition leaf (slug : string) (exitable : bool) (redirect : option string)
: BuildState World string string Tr :=
fun em tr =>
  {| Slug := slug; IsExitable := exitable;
     Entry := entryOf slug redirect em tr;
     ValidIntents := fun w => ([], w);
     Transition := fun _ _ w => (None, w) |}.

(** A state that moves to [target] on [intent] and stays on the
  intent ["stay"]. *)
Definition node (slug : string) (exitable : bool) (intent : string)
         (target : BuildState World string string Tr)
: BuildState World string string Tr :=
fun em tr =>
  {| Slug := slug; IsExitable := exitable;
     Entry := entryOf slug None em tr;
     ValidIntents := fun w => ([intent; "stay"], w);
     Transition := fun i _ w =>
       (if bool_decide (i = intent) then Some (target em tr) else None, w) |}.

(** The machine of the specification's scenario, cut after the
  second state: ["start"] is exitable and moves to ["middle"] on
  ["A"]; ["middle"] is not exitable. *)
Definition scenario : StateMachine World string string Tr :=
[ node "start" true "A" (node "middle" false "B" (leaf "start" true None));
  node "middle" false "B" (leaf "start" true None) ].

(** ["start"] redirects to ["r1"], ["r1"] to ["r2"], ["r2"] stays. *)
Definition redirecting : StateMachine World string string Tr :=
[ leaf "start" true (Some "r1");
  leaf "r1" true (Some "r2");
  leaf "r2" true None ].

(** Two factories reporting the slug ["a"]. *)
Definition duplicated : StateMachine World string string Tr :=
[ leaf "a" true None; leaf "b" true None; leaf "a" false None ].
(** ["start"] redirects to ["loop"] and ["loop"] back to ["start"]. *)
Definition cycling : StateMachine World string string Tr :=
  [ leaf "start" true (Some "loop"); leaf "loop" true (Some "start") ].

(** ["start"] redirects to ["r1"], which redirects to a slug no factory
    reports. *)
Definition dangling : StateMachine World string string Tr :=
  [ leaf "start" true (Some "r1"); leaf "r1" true (Some "missing") ].
End Fixtures.

Definition world0 : World := mkWorld ∅ 1000 DefaultInputTimeout [].

(** One actor ["u"] in state [slug], last updated at [t]. *)
Definition worldWith (slug : string) (t now timeout : Z) : World :=
  mkWorld {[ "u" := mkActor "web" slug t [] ∅ ]} now timeout [].

Definition start {A} (w : World) : EState World string A := mkES w [].

End Mem.

(** ** Vocabulary of the properties *)
Section Vocabulary.
Context {W Payload Intent : Type}.

Abbreviation Call := (Event Payload Intent).

(** Invocations of an entry behaviour among the engine's calls. *)
Definition isEntry (ev : Call) : bool :=
  match ev with
  | EvEntry _ _ => true
  | _ => false
  end.

Definition entryCount (evs : list Call) : nat :=
  length (List.filter isEntry evs).

(** Calls that write the current-state slug or the last-update
    timestamp of the actor. *)
Definition writesState (ev : Call) : bool :=
  match ev with
  | EvSetCurrentState _ | EvSetLastUpdateTime _ => true
  | _ => false
  end.

(** Calls that create an actor record. *)
Definition createsActor (ev : Call) : bool :=
  match ev with
  | EvCreateTraverser _ => true
  | _ => false
  end.

(** Calls that touch the queue of deferred requests from the consumer
    side. *)
Definition dequeues (ev : Call) : bool :=
  match ev with
  | EvDequeueQueuedState => true
  | _ => false
  end.

(** What entry resolution issues when it enters the states named
    [slugs] one after the other: the entry behaviour, then a read of the
    current state. *)
Definition entryCalls (slugs : list string) : list Call :=
  flat_map (fun slug => [EvEntry slug false; EvCurrentState]) slugs.

(** Re-entering the active state, as both [else] branches of [Step] do. *)
Definition reenter (currentState : State W Intent) : M W Payload Intent unit :=
  wrapf "failed to enter current state, "
    (call (EvEntry (Slug currentState) true) (Entry currentState true)).

(** A traverser whose read of the current state does not disturb what
    the next read returns. *)
Definition StableRead (traverser : Traverser W Payload) : Prop :=
  forall w r w', CurrentState traverser w = (r, w') ->
                 CurrentState traverser w' = (r, w').

(** [RedirectChain stateMap emitter traverser state entered final w w']:
    started in world [w], the entry behaviour of [state] and then those
    of the states it redirects to succeed.  [entered] lists, in order,
    the slugs of the states entered, [state] first; every redirect names
    a slug that differs from the one just entered and is in the state
    map; the state entered last does not redirect, its slug is [final],
    and the world is then [w'].  A chain of [n] redirects has
    [length entered = S n]. *)
Inductive RedirectChain
          (stateMap : gmap string (BuildState W Payload Intent (Traverser W Payload)))
          (emitter : option (Emitter W Payload)) (traverser : Traverser W Payload)
  : State W Intent -> list string -> string -> W -> W -> Prop :=
| chain_settled state w w1 w2 :
    Entry state false w = (Success tt, w1) ->
    CurrentState traverser w1 = (Success (Slug state), w2) ->
    RedirectChain stateMap emitter traverser state [Slug state] (Slug state) w w2
| chain_redirect state next shift entered final w w1 w2 w3 :
    Entry state false w = (Success tt, w1) ->
    CurrentState traverser w1 = (Success next, w2) ->
    next <> Slug state ->
    stateMap !! next = Some shift ->
    RedirectChain stateMap emitter traverser (shift emitter (Some traverser))
                  entered final w2 w3 ->
    RedirectChain stateMap emitter traverser state (Slug state :: entered) final w w3.

(** The calls the [Step] of the engine file with [TriggerState] can
    issue. *)
Definition stepCall (ev : Call) : bool :=
  match ev with
  | EvFetchTraverser _ | EvCreateTraverser _ | EvCurrentState
  | EvSetCurrentState _ | EvSetLastUpdateTime _ | EvSetPlatform _ | EvNow
  | EvEntry _ _ | EvValidIntents _ | EvInputTransformer _ | EvTransition _ _ =>
      true
  | _ => false
  end.

(** [issues allowed m]: whatever the world and however the collaborators
    answer, every call [m] adds to the engine's calls satisfies
    [allowed]. *)
Definition issues {A} (allowed : Call -> bool) (m : M W Payload Intent A) : Prop :=
  forall s, exists evs,
    calls (snd (m s)) = (calls s ++ evs)%list /\ forallb allowed evs = true.

(** The calls [TriggerState] can issue; the only data key it writes is
    [QueueInfoKey]. *)
Definition triggerCall (ev : Call) : bool :=
  match ev with
  | EvFetchTraverser _ | EvCreateTraverser _ | EvCurrentState
  | EvSetCurrentState _ | EvGetLastUpdateTime | EvSetLastUpdateTime _
  | EvSetPlatform _ | EvAddQueuedState _ _ | EvNow => true
  | EvUpsert key _ => bool_decide (key = QueueInfoKey)
  | EvEntry _ isReentry => negb isReentry
  | _ => false
  end.

(** [n] layers of [fmt.Errorf(msg + "%w", _)] around [e]. *)
Fixpoint nestWrap (n : nat) (msg : string) (e : error) : error :=
  match n with
  | O => e
  | S n' => Wrapf msg (nestWrap n' msg e)
  end.

(** [EntryFailure stateMap emitter traverser state depth cause evs w w']:
    started in world [w], entry resolution from [state] follows [depth]
    redirects and then fails in world [w'] with [cause]: the entry
    behaviour of the state reached reports an error, or the read of the
    current state does, or the current state names a slug that is not
    in the state map.  [evs] are the calls issued on the way. *)
Inductive EntryFailure
          (stateMap : gmap string (BuildState W Payload Intent (Traverser W Payload)))
          (emitter : option (Emitter W Payload)) (traverser : Traverser W Payload)
  : State W Intent -> nat -> error -> list Call -> W -> W -> Prop :=
| fails_entry state e w w1 :
    Entry state false w = (Failure e, w1) ->
    EntryFailure stateMap emitter traverser state 0 e
                 [EvEntry (Slug state) false] w w1
| fails_read state e w w1 w2 :
    Entry state false w = (Success tt, w1) ->
    CurrentState traverser w1 = (Failure e, w2) ->
    EntryFailure stateMap emitter traverser state 0
                 (Wrapf "failed to get the traversers current state, " e)
                 [EvEntry (Slug state) false; EvCurrentState] w w2
| fails_lookup state next w w1 w2 :
    Entry state false w = (Success tt, w1) ->
    CurrentState traverser w1 = (Success next, w2) ->
    next <> Slug state ->
    stateMap !! next = None ->
    EntryFailure stateMap emitter traverser state 0 (errNoState next)
                 [EvEntry (Slug state) false; EvCurrentState] w w2
| fails_deeper state next shift depth cause evs w w1 w2 w3 :
    Entry state false w = (Success tt, w1) ->
    CurrentState traverser w1 = (Success next, w2) ->
    next <> Slug state ->
    stateMap !! next = Some shift ->
    EntryFailure stateMap emitter traverser (shift emitter (Some traverser))
                 depth cause evs w2 w3 ->
    EntryFailure stateMap emitter traverser state (S depth) cause
                 (EvEntry (Slug state) false :: EvCurrentState :: evs) w w3.

(** [Redirecting stateMap emitter traverser inv]: from every state and
    world related by [inv], the entry behaviour succeeds and redirects
    to a slug of the state map whose state, in the world then reached,
    is again related by [inv]: a redirect cycle, or an endless chain. *)
Definition Redirecting
           (stateMap : gmap string (BuildState W Payload Intent (Traverser W Payload)))
           (emitter : option (Emitter W Payload)) (traverser : Traverser W Payload)
           (inv : State W Intent -> W -> Prop) : Prop :=
  forall state w,
    inv state w ->
    exists w1 next w2 shift,
      Entry state false w = (Success tt, w1)
      /\ CurrentState traverser w1 = (Success next, w2)
      /\ next <> Slug state
      /\ stateMap !! next = Some shift
      /\ inv (shift emitter (Some traverser)) w2.

End Vocabulary.

(** * Properties *)

(** ** State-map compilation *)
Section Compilation.
Context {W Payload Intent Tr : Type}.

Abbreviation Factory := (BuildState W Payload Intent Tr).

Abbreviation slugOf := (fun buildState : Factory => Slug (buildState None None)).

Abbreviation insertFactory :=
  (fun (stateMap : gmap string Factory) (buildState : Factory) =>
     <[ Slug (buildState None None) := buildState ]> stateMap).

Lemma compile_dom (stateMachine : list Factory) (acc : gmap string Factory) :
  dom (foldl insertFactory acc stateMachine)
  = dom acc ∪ list_to_set (slugOf <$> stateMachine).
Proof.
  revert acc. induction stateMachine as [|b rest IH]; intros acc; simpl.
  - set_solver.
  - rewrite IH, dom_insert_L. set_solver.
Qed.

Lemma compile_lookup (stateMachine : list Factory) (acc : gmap string Factory)
      (slug : string) :
  foldl insertFactory acc stateMachine !! slug
  = match last (filter (fun b => slugOf b = slug) stateMachine) with
    | Some b => Some b
    | None => acc !! slug
    end.
Proof.
  revert acc. induction stateMachine as [|b rest IH]; intros acc; simpl.
  - reflexivity.
  - rewrite IH, filter_cons.
    destruct (decide (Slug (b None None) = slug)) as [Heq|Hne].
    + rewrite last_cons.
      destruct (last (filter _ rest)); [reflexivity|].
      subst slug. apply lookup_insert_eq.
    + destruct (last (filter _ rest)); [reflexivity|].
      apply lookup_insert_ne. exact Hne.
Qed.

(** On a machine without repeated slugs the rejecting compilation of
    the specification and [GetStateMap] agree. *)
Lemma compile_rejecting_foldl (stateMachine : list Factory)
      (acc : gmap string Factory) :
  NoDup (slugOf <$> stateMachine) ->
  (forall slug, slug ∈ slugOf <$> stateMachine -> acc !! slug = None) ->
  compile_rejecting acc stateMachine
  = Success (foldl insertFactory acc stateMachine).
Proof.
  revert acc. induction stateMachine as [|b rest IH]; intros acc Hnd Hfresh; simpl.
  - reflexivity.
  - rewrite fmap_cons in Hnd. apply NoDup_cons in Hnd as [Hnotin Hnd].
    rewrite (Hfresh (Slug (b None None))) by (rewrite fmap_cons; left).
    apply IH; [exact Hnd|].
    intros slug Hin. rewrite lookup_insert_ne.
    + apply Hfresh. rewrite fmap_cons. right. exact Hin.
    + intros Heq. subst slug. contradiction.
Qed.

(** C2 (as the code has it).  [GetStateMap] is total and never reports
    an error: the compiled map has exactly the declared slugs as keys,
    hence one entry per distinct declared slug, and under each slug it
    holds the last factory of the machine that reports it, so a
    repeated slug silently replaces the earlier factory. *)
Theorem GetStateMap_last_writer_wins (stateMachine : StateMachine W Payload Intent Tr) :
  dom (GetStateMap stateMachine) = list_to_set (declared_slugs stateMachine)
  /\ size (GetStateMap stateMachine)
     = length (remove_dups (declared_slugs stateMachine))
  /\ forall slug : string,
       GetStateMap stateMachine !! slug
       = last (filter (fun b : Factory => Slug (b None None) = slug) stateMachine).
Proof.
  assert (Hdom : dom (GetStateMap stateMachine)
                 = list_to_set (declared_slugs stateMachine)).
  { unfold GetStateMap, declared_slugs.
    rewrite compile_dom, dom_empty_L. set_solver. }
  split; [exact Hdom|]. split.
  - rewrite <- size_dom, Hdom.
    rewrite <- (size_list_to_set (C := gset string) (remove_dups _))
      by apply NoDup_remove_dups.
    f_equal. apply set_eq. intros x.
    rewrite !elem_of_list_to_set, elem_of_remove_dups. reflexivity.
  - intros slug. unfold GetStateMap.
    rewrite compile_lookup, lookup_empty. destruct (last _); reflexivity.
Qed.

End Compilation.

(** C2 (as stated) fails: on a machine in which two factories report the
    slug ["a"] the rejecting compilation of the specification fails
    while [GetStateMap] returns a two-entry map whose ["a"] is the later,
    non-exitable factory. *)
Lemma GetStateMap_duplicate_slug_not_rejected :
  let stateMachine := Mem.duplicated (@id (Traverser Mem.World string)) in
  ~ NoDup (declared_slugs stateMachine)
  /\ compile_rejecting ∅ stateMachine = Failure (Errorf "duplicate slug (a)")
  /\ size (GetStateMap stateMachine) = 2%nat
  /\ (fun b => IsExitable (b None None)) <$> GetStateMap stateMachine !! "a"
     = Some false.
Proof.
  split; [|split; [|split]].
  - intros Hnd. vm_compute in Hnd.
    apply NoDup_cons in Hnd as [Hnotin _]. apply Hnotin.
    right. left.
  - vm_compute. reflexivity.
  - vm_compute. reflexivity.
  - vm_compute. reflexivity.
Qed.

(** ** Running the engine symbolically *)

Ltac exec_red := cbn beta iota zeta delta [world calls fst snd negb].

Ltac exec_step :=
  match goal with
  | H : ?op = _ |- context [?op] => rewrite H; exec_red
  end.

Ltac exec :=
  unfold BuildState in *;
  unfold reenter, bind, wrapf, call, callT, readVar, ret, fail, panic, out_of_fuel;
  exec_red; repeat exec_step.

Ltac trace_eq := rewrite <- ?app_assoc; cbn [app]; reflexivity.

Section Counting.
Context {Payload Intent : Type}.

Lemma entryCount_entryCalls (slugs : list string) :
  entryCount (entryCalls (Payload := Payload) (Intent := Intent) slugs)
  = length slugs.
Proof.
  induction slugs as [|slug rest IH]; [reflexivity|].
  unfold entryCount in *. simpl. rewrite IH. reflexivity.
Qed.

Lemma entryCount_app (xs ys : list (Event Payload Intent)) :
  entryCount (xs ++ ys) = (entryCount xs + entryCount ys)%nat.
Proof.
  unfold entryCount. rewrite List.filter_app, length_app. reflexivity.
Qed.

End Counting.

(** ** The engine file with [TriggerState] *)
Section LatestProperties.
Context {W Payload Intent : Type}.
Variable Now : W -> Z * W.
Variable InputTimeout : W -> Z.
Variable store : Store W (Traverser W Payload).
Variable emitter : option (Emitter W Payload).
Variable stateMap : gmap string (BuildState W Payload Intent (Traverser W Payload)).
Variable inputTransformer : InputTransformer W Payload Intent.

(** *** Entry resolution *)

Lemma RedirectChain_final_read traverser state entered final w w' :
  StableRead traverser ->
  RedirectChain stateMap emitter traverser state entered final w w' ->
  CurrentState traverser w' = (Success final, w').
Proof.
  intros Hstable Hchain. induction Hchain as [state w w1 w2 _ Hread|]; [|assumption].
  exact (Hstable _ _ _ Hread).
Qed.

Lemma RedirectChain_entered traverser state entered final w w' :
  RedirectChain stateMap emitter traverser state entered final w w' ->
  exists rest, entered = Slug state :: rest /\ last entered = Some final.
Proof.
  induction 1 as [state w w1 w2 _ _
                 |state next shift entered final w w1 w2 w3 _ _ _ _ _ IH].
  - exists []. split; reflexivity.
  - destruct IH as (rest & -> & Hlast). eexists. split; [reflexivity|].
    rewrite last_cons, Hlast. reflexivity.
Qed.

Lemma performEntryAction_runs_chain traverser state entered final w w' :
  RedirectChain stateMap emitter traverser state entered final w w' ->
  forall (fuel : nat) (cs : list (Event Payload Intent)),
    (length entered <= fuel)%nat ->
    Latest.performEntryAction fuel state emitter traverser stateMap (mkES w cs)
    = (Ok tt, mkES w' (cs ++ entryCalls entered)).
Proof.
  induction 1 as [state w w1 w2 Hentry Hread
                 |state next shift entered final w w1 w2 w3 Hentry Hread Hne Hmap _ IH];
    intros fuel cs Hfuel.
  - destruct fuel as [|fuel]; [simpl in Hfuel; lia|].
    simpl. exec. destruct (decide (Slug state = Slug state)); [|congruence].
    trace_eq.
  - destruct fuel as [|fuel]; [simpl in Hfuel; lia|].
    simpl. exec. destruct (decide (next = Slug state)); [congruence|].
    rewrite IH by (simpl in Hfuel; lia).
    simpl. trace_eq.
Qed.

(** The recursion budget only decides whether a run is followed to its
    end: a run that ends within some budget ends the same way within
    any larger one. *)
Lemma performEntryAction_fuel_mono traverser (fuel fuel' : nat) state s r s' :
  Latest.performEntryAction fuel state emitter traverser stateMap s = (r, s') ->
  r <> OutOfFuel ->
  (fuel <= fuel')%nat ->
  Latest.performEntryAction fuel' state emitter traverser stateMap s = (r, s').
Proof.
  revert fuel' state s r s'.
  induction fuel as [|fuel IH]; intros fuel' state s r s' Hrun Hr Hle.
  - inversion Hrun. congruence.
  - destruct fuel' as [|fuel']; [lia|].
    simpl in *. unfold bind, wrapf, call, ret, fail in *.
    destruct (Entry state false (world s)) as [[[]|e] w1];
      cbn [world calls] in *; [|exact Hrun].
    destruct (CurrentState traverser w1) as [[currentState|e] w2];
      [|exact Hrun].
    destruct (decide (currentState = Slug state)); [exact Hrun|].
    destruct (stateMap !! currentState) as [shift|]; [|exact Hrun].
    destruct (Latest.performEntryAction fuel (shift emitter (Some traverser))
                emitter traverser stateMap _) as [r0 s0] eqn:Hrec.
    assert (Hr0 : r0 <> OutOfFuel).
    { intros ->. inversion Hrun. congruence. }
    rewrite (IH fuel' _ _ _ _ Hrec Hr0) by lia.
    exact Hrun.
Qed.

(** C3 (as the code has it).  When the entry behaviours form a chain of
    [n] redirects starting from the entered state, entry resolution
    returns without error for every recursion budget above [n], after
    exactly [n + 1] invocations of an entry behaviour: one for each of
    the [n + 1] states on the chain, the last, non-redirecting one
    included.  The world is then the one the chain ends in, where the
    actor's current-state slug is the slug of that last state. *)
Theorem performEntryAction_redirect_chain
        traverser state entered final w w' (n fuel : nat)
        (cs : list (Event Payload Intent)) :
  StableRead traverser ->
  RedirectChain stateMap emitter traverser state entered final w w' ->
  length entered = S n ->
  (n < fuel)%nat ->
  Latest.performEntryAction fuel state emitter traverser stateMap (mkES w cs)
  = (Ok tt, mkES w' (cs ++ entryCalls entered))
  /\ entryCount (entryCalls (Payload := Payload) (Intent := Intent) entered) = S n
  /\ last entered = Some final
  /\ CurrentState traverser w' = (Success final, w').
Proof.
  intros Hstable Hchain Hlen Hfuel. split; [|split; [|split]].
  - apply (performEntryAction_runs_chain _ _ _ _ _ _ Hchain). lia.
  - rewrite entryCount_entryCalls. exact Hlen.
  - destruct (RedirectChain_entered _ _ _ _ _ _ Hchain) as (? & _ & Hlast).
    exact Hlast.
  - exact (RedirectChain_final_read _ _ _ _ _ _ Hstable Hchain).
Qed.

(** *** TriggerState *)

(** For an actor the store finds, [TriggerState] is [triggerTraverser]
    on the traverser fetched. *)
Lemma TriggerState_existing fuel platform uuid targetState input s traverser w1 :
  FetchTraverser _ store uuid (world s) = (Success traverser, w1) ->
  Latest.TriggerState Now InputTimeout fuel platform uuid targetState input
                      inputTransformer store emitter stateMap s
  = Latest.triggerTraverser Now InputTimeout fuel traverser targetState input
                            emitter stateMap
                            (mkES w1 (calls s ++ [EvFetchTraverser uuid])).
Proof.
  intros Hfetch. unfold Latest.TriggerState, Latest.getTraverser. exec.
  reflexivity.
Qed.

(** C4.  For an existing actor in an exitable current state:
    - when the last-update timestamp lies within the debounce window
      (the clock reads no later than timestamp plus [InputTimeout]),
      the request is enqueued and nothing else is done; here the
      timestamp is one that was set, or else the clock reads later than
      the zero time plus the window, as any real clock does, so that
      the zero time is never within the window;
    - when it lies outside the window, the move is applied at once: an
      unknown target slug is an error raised before any write;
      otherwise the engine sets the current state, reads the clock and
      stamps the last-update time, stashes the payload under
      [QueueInfoKey] and then runs entry resolution on the target
      state, in that order. *)
Theorem TriggerState_debounce
        fuel platform uuid targetState input s
        traverser w1 curState w2 stateObj lastUpdate w3 now w4 :
  FetchTraverser _ store uuid (world s) = (Success traverser, w1) ->
  CurrentState traverser w1 = (Success curState, w2) ->
  stateMap !! curState = Some stateObj ->
  IsExitable (stateObj None None) = true ->
  GetLastUpdateTime traverser w2 = (Success lastUpdate, w3) ->
  Now w3 = (now, w4) ->
  let reads : list (Event Payload Intent) :=
    [EvFetchTraverser uuid; EvCurrentState; EvGetLastUpdateTime] in
  let run :=
    Latest.TriggerState Now InputTimeout fuel platform uuid targetState input
                        inputTransformer store emitter stateMap s in
  (lastUpdate <> 0 \/ InputTimeout w4 < now ->
   now <= lastUpdate + InputTimeout w4 ->
   forall r w5,
     AddQueuedState traverser targetState input w4 = (r, w5) ->
     run = (match r with
            | Success _ => Ok tt
            | Failure e => Err (Wrapf "failed to enqueue state, " e)
            end,
            mkES w5 (calls s ++ reads
                       ++ [EvNow; EvAddQueuedState targetState input])))
  /\
  (lastUpdate + InputTimeout w4 < now ->
   let w4' := if IsZero lastUpdate then w3 else w4 in
   let checked : list (Event Payload Intent) :=
     if IsZero lastUpdate then reads else (reads ++ [EvNow])%list in
   (stateMap !! targetState = None ->
    run = (Err (errNoState targetState), mkES w4' (calls s ++ checked)))
   /\
   (forall target t w5 w6 w7 w8,
      stateMap !! targetState = Some target ->
      SetCurrentState traverser targetState w4' = (Success tt, w5) ->
      Now w5 = (t, w6) ->
      SetLastUpdateTime traverser t w6 = (Success tt, w7) ->
      Upsert traverser QueueInfoKey input w7 = (Success tt, w8) ->
      run = wrapf "failed to perform entry action triggered state, "
              (Latest.performEntryAction fuel (target emitter (Some traverser))
                                         emitter traverser stateMap)
              (mkES w8 (calls s ++ checked
                          ++ [EvSetCurrentState targetState; EvNow;
                              EvSetLastUpdateTime t;
                              EvUpsert QueueInfoKey input])))).
Proof.
  intros Hfetch Hcur Hmap Hexit Hlast Hnow reads run. subst reads run.
  rewrite (TriggerState_existing _ _ _ _ _ _ _ _ Hfetch).
  unfold Latest.triggerTraverser, Latest.checkStateExitable.
  split.
  - intros Hreal Hwithin r w5 Henq.
    assert (Hzero : IsZero lastUpdate = false)
      by (unfold IsZero; apply Z.eqb_neq; lia).
    assert (Hafter : After now (Add lastUpdate (InputTimeout w4)) = false)
      by (unfold After, Add; apply Z.ltb_ge; lia).
    exec. destruct r as [[]|e]; trace_eq.
  - intros Houtside.
    assert (Hafter : After now (Add lastUpdate (InputTimeout w4)) = true)
      by (unfold After, Add; apply Z.ltb_lt; lia).
    destruct (IsZero lastUpdate) eqn:Hzero; cbv zeta; split.
    + intros Hnone. exec. trace_eq.
    + intros target t w5 w6 w7 w8 Hsome Hset Hnow2 Hstamp Hupsert.
      exec. trace_eq.
    + intros Hnone. exec. trace_eq.
    + intros target t w5 w6 w7 w8 Hsome Hset Hnow2 Hstamp Hupsert.
      exec. trace_eq.
Qed.

(** C9.  For an existing actor in an exitable current state whose
    last-update timestamp is the zero time, [TriggerState] consults
    neither the clock nor [InputTimeout] before applying the move:
    after the three reads it resolves the target, sets the current
    state, stamps the time, stashes the payload and runs entry
    resolution, whatever the debounce window is. *)
Theorem TriggerState_zero_timestamp
        fuel platform uuid targetState input s
        traverser w1 curState w2 stateObj w3 :
  FetchTraverser _ store uuid (world s) = (Success traverser, w1) ->
  CurrentState traverser w1 = (Success curState, w2) ->
  stateMap !! curState = Some stateObj ->
  IsExitable (stateObj None None) = true ->
  GetLastUpdateTime traverser w2 = (Success 0, w3) ->
  let reads : list (Event Payload Intent) :=
    [EvFetchTraverser uuid; EvCurrentState; EvGetLastUpdateTime] in
  let run :=
    Latest.TriggerState Now InputTimeout fuel platform uuid targetState input
                        inputTransformer store emitter stateMap s in
  (stateMap !! targetState = None ->
   run = (Err (errNoState targetState), mkES w3 (calls s ++ reads)))
  /\
  (forall target t w4 w5 w6 w7,
     stateMap !! targetState = Some target ->
     SetCurrentState traverser targetState w3 = (Success tt, w4) ->
     Now w4 = (t, w5) ->
     SetLastUpdateTime traverser t w5 = (Success tt, w6) ->
     Upsert traverser QueueInfoKey input w6 = (Success tt, w7) ->
     run = wrapf "failed to perform entry action triggered state, "
             (Latest.performEntryAction fuel (target emitter (Some traverser))
                                        emitter traverser stateMap)
             (mkES w7 (calls s ++ reads
                         ++ [EvSetCurrentState targetState; EvNow;
                             EvSetLastUpdateTime t;
                             EvUpsert QueueInfoKey input]))).
Proof.
  intros Hfetch Hcur Hmap Hexit Hlast reads run. subst reads run.
  rewrite (TriggerState_existing _ _ _ _ _ _ _ _ Hfetch).
  unfold Latest.triggerTraverser, Latest.checkStateExitable.
  assert (Hzero : IsZero 0 = true) by reflexivity.
  split.
  - intros Hnone. exec. trace_eq.
  - intros target t w4 w5 w6 w7 Hsome Hset Hnow Hstamp Hupsert.
    exec. trace_eq.
Qed.

(** C10.  For an existing actor and a target slug that is not in the
    state map: when the trigger is deferred, because the current state
    is not exitable or because the timestamp is set and within the
    debounce window, the request is enqueued and [TriggerState] returns
    without error; the target is looked up only when the move is
    applied at once, and then the lookup is what fails. *)
Theorem TriggerState_deferred_unknown_target
        fuel platform uuid targetState input s
        traverser w1 curState w2 stateObj :
  FetchTraverser _ store uuid (world s) = (Success traverser, w1) ->
  CurrentState traverser w1 = (Success curState, w2) ->
  stateMap !! curState = Some stateObj ->
  stateMap !! targetState = None ->
  let run :=
    Latest.TriggerState Now InputTimeout fuel platform uuid targetState input
                        inputTransformer store emitter stateMap s in
  (IsExitable (stateObj None None) = false ->
   forall w3,
     AddQueuedState traverser targetState input w2 = (Success tt, w3) ->
     run = (Ok tt,
            mkES w3 (calls s ++ [EvFetchTraverser uuid; EvCurrentState;
                                 EvAddQueuedState targetState input])))
  /\
  (IsExitable (stateObj None None) = true ->
   forall lastUpdate w3 now w4,
     GetLastUpdateTime traverser w2 = (Success lastUpdate, w3) ->
     Now w3 = (now, w4) ->
     (lastUpdate <> 0 ->
      now <= lastUpdate + InputTimeout w4 ->
      forall w5,
        AddQueuedState traverser targetState input w4 = (Success tt, w5) ->
        run = (Ok tt,
               mkES w5 (calls s ++ [EvFetchTraverser uuid; EvCurrentState;
                                    EvGetLastUpdateTime; EvNow;
                                    EvAddQueuedState targetState input])))
     /\
     (lastUpdate = 0 \/ lastUpdate + InputTimeout w4 < now ->
      fst run = Err (errNoState targetState)
      /\ forallb (fun ev => negb (writesState ev))
                 (drop (length (calls s)) (calls (snd run))) = true)).
Proof.
  intros Hfetch Hcur Hmap Hnone run. subst run.
  rewrite (TriggerState_existing _ _ _ _ _ _ _ _ Hfetch).
  unfold Latest.triggerTraverser, Latest.checkStateExitable.
  split.
  - intros Hexit w3 Henq. exec. trace_eq.
  - intros Hexit lastUpdate w3 now w4 Hlast Hnow. split.
    + intros Hset Hwithin w5 Henq.
      assert (Hzero : IsZero lastUpdate = false)
        by (unfold IsZero; apply Z.eqb_neq; lia).
      assert (Hafter : After now (Add lastUpdate (InputTimeout w4)) = false)
        by (unfold After, Add; apply Z.ltb_ge; lia).
      exec. trace_eq.
    + intros Happly.
      destruct (IsZero lastUpdate) eqn:Hzero.
      * exec. split; [reflexivity|].
        rewrite <- !app_assoc, drop_app_length. reflexivity.
      * assert (Hafter : After now (Add lastUpdate (InputTimeout w4)) = true).
        { unfold After, Add. apply Z.ltb_lt.
          unfold IsZero in Hzero. apply Z.eqb_neq in Hzero.
          destruct Happly; [contradiction|assumption]. }
        exec. split; [reflexivity|].
        rewrite <- !app_assoc, drop_app_length. reflexivity.
Qed.

(** C1 (as the code has it).  For an actor the store does not find,
    [TriggerState] goes through [getTraverser] as [Step] does and
    creates the record.  When the creation fails, that failure is
    returned under the "not found" message; when the creation and the
    three writes that follow (start slug, timestamp, platform) succeed,
    [TriggerState] carries on with the new traverser exactly as with a
    fetched one. *)
Theorem TriggerState_absent_actor
        fuel platform uuid targetState input s e0 w1 :
  FetchTraverser _ store uuid (world s) = (Failure e0, w1) ->
  let run :=
    Latest.TriggerState Now InputTimeout fuel platform uuid targetState input
                        inputTransformer store emitter stateMap s in
  (forall e w2,
     CreateTraverser _ store uuid w1 = (Failure e, w2) ->
     run = (Err (Wrapf ("traverser with id (" +:+ uuid +:+ ") not found, ")
                   (Wrapf ("failed to create traverser for id (" +:+ uuid +:+ "), ")
                          e)),
            mkES w2 (calls s ++ [EvFetchTraverser uuid; EvCreateTraverser uuid])))
  /\
  (forall traverser w2 w3 now w4 w5 w6,
     CreateTraverser _ store uuid w1 = (Success traverser, w2) ->
     SetCurrentState traverser StartState w2 = (Success tt, w3) ->
     Now w3 = (now, w4) ->
     SetLastUpdateTime traverser now w4 = (Success tt, w5) ->
     SetPlatform traverser platform w5 = (Success tt, w6) ->
     run = Latest.triggerTraverser Now InputTimeout fuel traverser targetState
             input emitter stateMap
             (mkES w6 (calls s ++ [EvFetchTraverser uuid; EvCreateTraverser uuid;
                                   EvSetCurrentState StartState; EvNow;
                                   EvSetLastUpdateTime now;
                                   EvSetPlatform platform]))).
Proof.
  intros Hfetch run. subst run.
  unfold Latest.TriggerState, Latest.getTraverser. split.
  - intros e w2 Hcreate. exec. trace_eq.
  - intros traverser w2 w3 now w4 w5 w6 Hcreate Hset Hnow Hstamp Hplat.
    exec. f_equal. f_equal. trace_eq.
Qed.

(** *** Step *)

(** What re-entering the active state amounts to: one invocation of its
    entry behaviour with [isReentry = true], whose error, if any, is
    returned with context. *)
Lemma reenter_run (active : State W Intent) (s : EState W Payload Intent) :
  reenter active s
  = let '(r, w) := Entry active true (world s) in
    (match r with
     | Success _ => Ok tt
     | Failure e => Err (Wrapf "failed to enter current state, " e)
     end,
     mkES w (calls s ++ [EvEntry (Slug active) true])).
Proof.
  exec. destruct (Entry active true (world s)) as [[[]|e] w]; reflexivity.
Qed.

(** C6.  For an existing actor whose current state is in the state map,
    a [Step] whose input classifies to no intent and a [Step] whose
    input classifies to an intent on which the transition stays end the
    same way: after the reads and the classification (and, in the
    second case, the call of the transition itself) the engine issues
    one call, the entry behaviour of the active state with
    [isReentry = true], and returns what it returns.  It writes neither
    the current-state slug nor the last-update timestamp.  The same
    holds for the [Step] of the earliest engine file. *)
Theorem Step_no_intent_and_stay_reenter
        fuel platform uuid input s traverser w1 curState w2 stateObj
        validIntents w3 :
  FetchTraverser _ store uuid (world s) = (Success traverser, w1) ->
  CurrentState traverser w1 = (Success curState, w2) ->
  stateMap !! curState = Some stateObj ->
  ValidIntents (stateObj emitter (Some traverser)) w2 = (validIntents, w3) ->
  let active := stateObj emitter (Some traverser) in
  let reads : list (Event Payload Intent) :=
    [EvFetchTraverser uuid; EvCurrentState; EvValidIntents (Slug active);
     EvInputTransformer input] in
  (forall params w4,
     inputTransformer input validIntents w3 = ((None, params), w4) ->
     let after := mkES w4 (calls s ++ reads) in
     Latest.Step Now fuel platform uuid input inputTransformer store emitter
                 stateMap s = reenter active after
     /\ Legacy.Step fuel platform uuid input inputTransformer store emitter
                    stateMap s = reenter active after
     /\ forallb (fun ev => negb (writesState ev))
                (drop (length (calls s)) (calls (snd (reenter active after))))
        = true)
  /\
  (forall intent params w4 w5,
     inputTransformer input validIntents w3 = ((Some intent, params), w4) ->
     Transition active intent params w4 = (None, w5) ->
     let after := mkES w5 (calls s ++ reads ++ [EvTransition (Slug active) intent]) in
     Latest.Step Now fuel platform uuid input inputTransformer store emitter
                 stateMap s = reenter active after
     /\ Legacy.Step fuel platform uuid input inputTransformer store emitter
                    stateMap s = reenter active after
     /\ forallb (fun ev => negb (writesState ev))
                (drop (length (calls s)) (calls (snd (reenter active after))))
        = true).
Proof.
  intros Hfetch Hcur Hmap Hvalid active reads. subst reads. split.
  - intros params w4 Hclass after. subst after. split; [|split].
    + unfold Latest.Step, Latest.getTraverser, Latest.transitionBlock.
      subst active. exec. rewrite <- !app_assoc. reflexivity.
    + unfold Legacy.Step, Legacy.transitionBlock.
      subst active. exec. rewrite <- !app_assoc. reflexivity.
    + rewrite reenter_run. cbn [world calls].
      destruct (Entry active true w4) as [r w]. cbn [snd calls].
      rewrite <- !app_assoc, drop_app_length. reflexivity.
  - intros intent params w4 w5 Hclass Hstay after. subst after. split; [|split].
    + unfold Latest.Step, Latest.getTraverser, Latest.transitionBlock.
      subst active. exec. rewrite <- !app_assoc. reflexivity.
    + unfold Legacy.Step, Legacy.transitionBlock.
      subst active. exec. rewrite <- !app_assoc. reflexivity.
    + rewrite reenter_run. cbn [world calls].
      destruct (Entry active true w5) as [r w]. cbn [snd calls].
      rewrite <- !app_assoc, drop_app_length. reflexivity.
Qed.

(** C7.  For an actor the store does not find, [Step] creates the
    record, sets its current state to [StartState], reads the clock and
    stamps the last-update time, and records the platform, in that
    order; with the start state resolved, it runs entry resolution on
    it once and only then hands the input to the transition block.
    When the entry behaviours from the start state form a chain of
    redirects, all of them have run, once each, before the input is
    classified. *)
Theorem Step_new_actor
        fuel platform uuid input s e0 w1 traverser w2 w3 now w4 w5 w6 w7 stateObj :
  FetchTraverser _ store uuid (world s) = (Failure e0, w1) ->
  CreateTraverser _ store uuid w1 = (Success traverser, w2) ->
  SetCurrentState traverser StartState w2 = (Success tt, w3) ->
  Now w3 = (now, w4) ->
  SetLastUpdateTime traverser now w4 = (Success tt, w5) ->
  SetPlatform traverser platform w5 = (Success tt, w6) ->
  CurrentState traverser w6 = (Success StartState, w7) ->
  stateMap !! StartState = Some stateObj ->
  let startState := stateObj emitter (Some traverser) in
  let created : list (Event Payload Intent) :=
    [EvFetchTraverser uuid; EvCreateTraverser uuid;
     EvSetCurrentState StartState; EvNow; EvSetLastUpdateTime now;
     EvSetPlatform platform; EvCurrentState] in
  let run :=
    Latest.Step Now fuel platform uuid input inputTransformer store emitter
                stateMap s in
  run = (_ <- wrapf "failed to perform action entry, "
                (Latest.performEntryAction fuel startState emitter traverser
                                           stateMap) ;;
         Latest.transitionBlock Now fuel startState input inputTransformer
                                emitter traverser stateMap)
          (mkES w7 (calls s ++ created))
  /\
  (forall entered final w8,
     RedirectChain stateMap emitter traverser startState entered final w7 w8 ->
     (length entered <= fuel)%nat ->
     run = Latest.transitionBlock Now fuel startState input inputTransformer
             emitter traverser stateMap
             (mkES w8 (calls s ++ created ++ entryCalls entered))
     /\ entryCount (created ++ entryCalls entered) = length entered).
Proof.
  intros Hfetch Hcreate Hset Hnow Hstamp Hplat Hcur Hmap startState created run.
  assert (Hrun : run
    = (_ <- wrapf "failed to perform action entry, "
              (Latest.performEntryAction fuel startState emitter traverser
                                         stateMap) ;;
       Latest.transitionBlock Now fuel startState input inputTransformer
                              emitter traverser stateMap)
        (mkES w7 (calls s ++ created))).
  { subst run created startState.
    unfold Latest.Step, Latest.getTraverser. exec.
    rewrite <- !app_assoc. reflexivity. }
  split; [exact Hrun|].
  intros entered final w8 Hchain Hfuel. split.
  - rewrite Hrun. unfold bind, wrapf.
    rewrite (performEntryAction_runs_chain _ _ _ _ _ _ Hchain) by exact Hfuel.
    rewrite <- !app_assoc. reflexivity.
  - rewrite entryCount_app, entryCount_entryCalls. reflexivity.
Qed.

(** With the lookup checked, an actor whose recorded current state is
    not in the state map makes this [Step] return the "does not exist"
    error, before anything is written. *)
Lemma Step_unknown_state fuel platform uuid input s traverser w1 curState w2 :
  FetchTraverser _ store uuid (world s) = (Success traverser, w1) ->
  CurrentState traverser w1 = (Success curState, w2) ->
  stateMap !! curState = None ->
  Latest.Step Now fuel platform uuid input inputTransformer store emitter
              stateMap s
  = (Err (errNoState curState),
     mkES w2 (calls s ++ [EvFetchTraverser uuid; EvCurrentState])).
Proof.
  intros Hfetch Hcur Hmap.
  unfold Latest.Step, Latest.getTraverser. exec. trace_eq.
Qed.

(** The earliest [Step] calls the nil function instead. *)
Lemma Legacy_Step_unknown_state fuel platform uuid input s traverser w1 curState w2 :
  FetchTraverser _ store uuid (world s) = (Success traverser, w1) ->
  CurrentState traverser w1 = (Success curState, w2) ->
  stateMap !! curState = None ->
  Legacy.Step fuel platform uuid input inputTransformer store emitter
              stateMap s
  = (Panic, mkES w2 (calls s ++ [EvFetchTraverser uuid; EvCurrentState])).
Proof.
  intros Hfetch Hcur Hmap.
  unfold Legacy.Step. exec. trace_eq.
Qed.

End LatestProperties.

(** ** Which calls the engine can issue *)
Section Issues.
Context {W Payload Intent : Type}.
Variable allowed : Event Payload Intent -> bool.

Abbreviation Eng := (M W Payload Intent).

Lemma issues_nothing {A} (m : Eng A) :
  (forall s, snd (m s) = s) -> issues allowed m.
Proof.
  intros Hm s. exists []. rewrite Hm, app_nil_r. split; reflexivity.
Qed.

Lemma issues_ret {A} (a : A) : issues allowed (ret a : Eng A).
Proof. apply issues_nothing. reflexivity. Qed.

Lemma issues_fail {A} (e : error) : issues allowed (fail e : Eng A).
Proof. apply issues_nothing. reflexivity. Qed.

Lemma issues_panic {A} : issues allowed (panic : Eng A).
Proof. apply issues_nothing. reflexivity. Qed.

Lemma issues_out_of_fuel {A} : issues allowed (out_of_fuel : Eng A).
Proof. apply issues_nothing. reflexivity. Qed.

Lemma issues_readVar {A} (var : W -> A) : issues allowed (readVar var : Eng A).
Proof. apply issues_nothing. reflexivity. Qed.

Lemma issues_call {A} ev (op : Eff W A) :
  allowed ev = true -> issues allowed (call ev op : Eng A).
Proof.
  intros Hev s. exists [ev]. unfold call.
  destruct (op (world s)) as [[a|e] w']; simpl; rewrite Hev; split; reflexivity.
Qed.

Lemma issues_callT {A} ev (op : W -> A * W) :
  allowed ev = true -> issues allowed (callT ev op : Eng A).
Proof.
  intros Hev s. exists [ev]. unfold callT.
  destruct (op (world s)) as [a w']; simpl; rewrite Hev; split; reflexivity.
Qed.

Lemma issues_wrapf {A} msg (m : Eng A) :
  issues allowed m -> issues allowed (wrapf msg m).
Proof.
  intros Hm s. destruct (Hm s) as (evs & Hcalls & Hall). exists evs.
  split; [|exact Hall]. unfold wrapf.
  destruct (m s) as [[a|e| |] s']; exact Hcalls.
Qed.

Lemma issues_bind {A B} (m : Eng A) (k : A -> Eng B) :
  issues allowed m -> (forall a, issues allowed (k a)) ->
  issues allowed (bind m k).
Proof.
  intros Hm Hk s. destruct (Hm s) as (evs & Hcalls & Hall). unfold bind.
  destruct (m s) as [[a|e| |] s']; simpl in Hcalls;
    try (exists evs; split; [exact Hcalls|exact Hall]).
  destruct (Hk a s') as (evs' & Hcalls' & Hall').
  exists (evs ++ evs')%list. rewrite Hcalls', Hcalls, app_assoc.
  split; [reflexivity|]. rewrite forallb_app, Hall, Hall'. reflexivity.
Qed.

End Issues.

Section LatestIssues.
Context {W Payload Intent : Type}.
Variable Now : W -> Z * W.

Abbreviation allowed := (stepCall (Payload := Payload) (Intent := Intent)).

Ltac step_call :=
  first [apply issues_call | apply issues_callT]; reflexivity.

Lemma performEntryAction_issues fuel state emitter
      (traverser : Traverser W Payload)
      (stateMap : gmap string (BuildState W Payload Intent (Traverser W Payload))) :
  issues allowed (Latest.performEntryAction fuel state emitter traverser stateMap).
Proof.
  revert state. induction fuel as [|fuel IH]; intros state; simpl.
  - apply issues_out_of_fuel.
  - apply issues_bind; [step_call|]. intros _.
    apply issues_bind; [apply issues_wrapf; step_call|]. intros currentState.
    destruct (decide (currentState = Slug state)); [apply issues_ret|].
    destruct (stateMap !! currentState); [|apply issues_fail].
    apply issues_wrapf, IH.
Qed.

Lemma getTraverser_issues platform uuid (store : Store W (Traverser W Payload)) :
  issues allowed (Latest.getTraverser Now platform uuid store).
Proof.
  intros s. unfold Latest.getTraverser.
  destruct (issues_call allowed (EvFetchTraverser uuid)
                        (FetchTraverser _ store uuid) eq_refl s)
    as (evs & Hcalls & Hall).
  destruct (call _ _ s) as [[traverser|e| |] s1]; simpl in Hcalls;
    try (exists evs; split; [exact Hcalls|exact Hall]).
  match goal with
  | |- context [bind ?m ?k s1] =>
      assert (Hrest : issues allowed (bind m k))
  end.
  { apply issues_bind; [apply issues_wrapf; step_call|]. intros traverser.
    apply issues_bind; [apply issues_wrapf; step_call|]. intros _.
    apply issues_bind; [step_call|]. intros now.
    apply issues_bind; [apply issues_wrapf; step_call|]. intros _.
    apply issues_bind; [apply issues_wrapf; step_call|]. intros _.
    apply issues_ret. }
  destruct (Hrest s1) as (evs' & Hcalls' & Hall').
  exists (evs ++ evs')%list. rewrite Hcalls', Hcalls, app_assoc.
  split; [reflexivity|]. rewrite forallb_app, Hall, Hall'. reflexivity.
Qed.

Lemma transitionBlock_issues fuel currentState input inputTransformer emitter
      (traverser : Traverser W Payload)
      (stateMap : gmap string (BuildState W Payload Intent (Traverser W Payload))) :
  issues allowed (Latest.transitionBlock Now fuel currentState input
                                         inputTransformer emitter traverser stateMap).
Proof.
  unfold Latest.transitionBlock.
  apply issues_bind; [step_call|]. intros validIntents.
  apply issues_bind; [step_call|]. intros [[intent|] params].
  - apply issues_bind; [step_call|]. intros [newState|].
    + apply issues_bind; [apply issues_wrapf; step_call|]. intros _.
      apply issues_bind; [step_call|]. intros now.
      apply issues_bind; [apply issues_wrapf; step_call|]. intros _.
      apply issues_wrapf, performEntryAction_issues.
    + apply issues_wrapf. step_call.
  - apply issues_wrapf. step_call.
Qed.

(** Whatever the collaborators do, the [Step] of this file issues only
    calls in [stepCall]: none on the queue of deferred requests, whose
    invocation is left to the caller. *)
Lemma Step_issues fuel platform uuid input inputTransformer
      (store : Store W (Traverser W Payload)) emitter
      (stateMap : gmap string (BuildState W Payload Intent (Traverser W Payload))) :
  issues allowed (Latest.Step Now fuel platform uuid input inputTransformer
                              store emitter stateMap).
Proof.
  unfold Latest.Step.
  apply issues_bind; [apply issues_wrapf, getTraverser_issues|].
  intros [traverser newTraverser].
  apply issues_bind; [apply issues_wrapf; step_call|]. intros curState.
  destruct (stateMap !! curState); [|apply issues_fail].
  apply issues_bind.
  - destruct newTraverser; [|apply issues_ret].
    apply issues_wrapf, performEntryAction_issues.
  - intros _. apply transitionBlock_issues.
Qed.

End LatestIssues.

(** ** Deferred requests *)
Section DeferredRequests.
Context {W Payload Intent : Type}.
Variable Now : W -> Z * W.
Variable InputTimeout : W -> Z.
Variable inputTransformer : InputTransformer W Payload Intent.
Variable emitter : option (Emitter W Payload).
Variable store : Store W (Traverser W Payload).
Variable stateMap : gmap string (BuildState W Payload Intent (Traverser W Payload)).
Variable qstore : Store W (QTraverser W Payload).
Variable qstateMap : gmap string (BuildState W Payload Intent (QTraverser W Payload)).

(** A [Step] of the engine file with [TriggerState] never adds a call
    on the queue to the engine's calls. *)
Lemma Step_never_dequeues fuel platform uuid input s :
  forallb (fun ev => negb (dequeues ev))
          (drop (length (calls s))
                (calls (snd (Latest.Step Now fuel platform uuid input
                                         inputTransformer store emitter
                                         stateMap s))))
  = true.
Proof.
  destruct (Step_issues Now fuel platform uuid input inputTransformer store
                        emitter stateMap s) as (evs & -> & Hall).
  rewrite drop_app_length.
  apply forallb_forall. intros ev Hin.
  rewrite forallb_forall in Hall. specialize (Hall ev Hin).
  destruct ev; try reflexivity; discriminate.
Qed.

(** C5 (as the code has it).  For an existing actor whose current state
    is not exitable, [TriggerState] enqueues the request with
    [AddQueuedState] and returns; it writes neither the current-state
    slug nor the last-update timestamp.  The [Step] defined next to
    [TriggerState] never consults the queue.  It is the [Step] of the
    engine file with [EnqueueStateToUser] that, for an actor the store
    finds, dequeues one request first and, when there is one, sets the
    current state to its target and stashes its payload under
    [QueueInfoKey] before it reads the current state and resolves the
    active state; when the queue is empty it writes nothing before that
    read. *)
Theorem TriggerState_defers_and_queued_Step_applies :
  (forall fuel platform uuid targetState input s traverser w1 curState w2
          stateObj r w3,
     FetchTraverser _ store uuid (world s) = (Success traverser, w1) ->
     CurrentState traverser w1 = (Success curState, w2) ->
     stateMap !! curState = Some stateObj ->
     IsExitable (stateObj None None) = false ->
     AddQueuedState traverser targetState input w2 = (r, w3) ->
     Latest.TriggerState Now InputTimeout fuel platform uuid targetState input
                         inputTransformer store emitter stateMap s
     = (match r with
        | Success _ => Ok tt
        | Failure e => Err (Wrapf "failed to enqueue state, " e)
        end,
        mkES w3 (calls s ++ [EvFetchTraverser uuid; EvCurrentState;
                             EvAddQueuedState targetState input])))
  /\
  (forall fuel platform uuid input s,
     forallb (fun ev => negb (dequeues ev))
             (drop (length (calls s))
                   (calls (snd (Latest.Step Now fuel platform uuid input
                                            inputTransformer store emitter
                                            stateMap s))))
     = true)
  /\
  (forall fuel platform uuid input s traverser w1 state info w2 w3 w4
          curState w5 stateObj,
     FetchTraverser _ qstore uuid (world s) = (Success traverser, w1) ->
     DequeueQueuedState4 traverser w1 = (Success (state, info, true), w2) ->
     SetCurrentState (qbase traverser) state w2 = (Success tt, w3) ->
     Upsert (qbase traverser) QueueInfoKey info w3 = (Success tt, w4) ->
     CurrentState (qbase traverser) w4 = (Success curState, w5) ->
     qstateMap !! curState = Some stateObj ->
     Queued.Step fuel platform uuid input inputTransformer qstore emitter
                 qstateMap s
     = Queued.transitionBlock fuel (stateObj emitter (Some traverser)) input
         inputTransformer emitter traverser qstateMap
         (mkES w5 (calls s ++ [EvFetchTraverser uuid; EvDequeueQueuedState;
                               EvSetCurrentState state;
                               EvUpsert QueueInfoKey info; EvCurrentState])))
  /\
  (forall fuel platform uuid input s traverser w1 state info w2
          curState w3 stateObj,
     FetchTraverser _ qstore uuid (world s) = (Success traverser, w1) ->
     DequeueQueuedState4 traverser w1 = (Success (state, info, false), w2) ->
     CurrentState (qbase traverser) w2 = (Success curState, w3) ->
     qstateMap !! curState = Some stateObj ->
     Queued.Step fuel platform uuid input inputTransformer qstore emitter
                 qstateMap s
     = Queued.transitionBlock fuel (stateObj emitter (Some traverser)) input
         inputTransformer emitter traverser qstateMap
         (mkES w3 (calls s ++ [EvFetchTraverser uuid; EvDequeueQueuedState;
                               EvCurrentState]))).
Proof.
  split; [|split; [|split]].
  - intros fuel platform uuid targetState input s traverser w1 curState w2
           stateObj r w3 Hfetch Hcur Hmap Hexit Henq.
    unfold Latest.TriggerState, Latest.getTraverser, Latest.triggerTraverser,
      Latest.checkStateExitable.
    exec. destruct r as [[]|e]; trace_eq.
  - intros. apply Step_never_dequeues.
  - intros fuel platform uuid input s traverser w1 state info w2 w3 w4
           curState w5 stateObj Hfetch Hdeq Hset Hupsert Hcur Hmap.
    unfold Queued.Step, Queued.fetchOrCreate. exec. trace_eq.
  - intros fuel platform uuid input s traverser w1 state info w2
           curState w3 stateObj Hfetch Hdeq Hcur Hmap.
    unfold Queued.Step, Queued.fetchOrCreate. exec. trace_eq.
Qed.

End DeferredRequests.

(** ** The engine on the in-memory store *)

Lemma Mem_traverser_StableRead (uuid : string) :
  StableRead (Mem.traverser uuid).
Proof.
  intros w r w' Hread. simpl in *. unfold Mem.read in *.
  destruct (Mem.actors w !! uuid) eqn:Hactor;
    inversion Hread; subst; rewrite Hactor; reflexivity.
Qed.

(** Discharging a premise on the in-memory store.  Premises whose
    result holds a traverser or a state factory are checked by
    conversion, the others by evaluation. *)
Ltac holds :=
  lazymatch goal with
  | |- @FetchTraverser _ _ _ _ _ = _ => reflexivity
  | |- @CreateTraverser _ _ _ _ _ = _ => reflexivity
  | |- @lookup _ _ _ _ _ _ = _ => reflexivity
  | |- _ => vm_compute; first [reflexivity | discriminate | lia]
  end.

(** Discharge the first premise of [H] on the in-memory store. *)
Ltac feed H :=
  match type of H with
  | ?P -> _ =>
      let Hp := fresh in
      assert (Hp : P) by holds; specialize (H Hp); clear Hp; cbv zeta in H
  end.

Ltac run_chain :=
  repeat first
    [ eapply chain_settled; [holds | holds]
    | eapply chain_redirect; [holds | holds | holds | holds | ] ].

(** Entry resolution on the machine whose ["start"] redirects to ["r1"]
    and whose ["r1"] redirects to ["r2"]: two redirects, three entries. *)
Lemma performEntryAction_redirect_chain_witness :
  let stateMap := GetStateMap (Mem.redirecting id) in
  let traverser := Mem.traverser "u" in
  let state := Mem.leaf id "start" true (Some "r1") (Some Mem.emitter) (Some traverser) in
  exists w',
    Latest.performEntryAction 3 state (Some Mem.emitter) traverser stateMap
                              (Mem.start (Mem.worldWith "start" 0 1000 Minute))
    = (Ok tt, mkES w' ([] ++ entryCalls ["start"; "r1"; "r2"]))
    /\ entryCount (entryCalls (Payload := string) (Intent := string)
                              ["start"; "r1"; "r2"]) = 3%nat
    /\ last ["start"; "r1"; "r2"] = Some "r2"
    /\ CurrentState traverser w' = (Success "r2", w').
Proof.
  cbv zeta. eexists.
  eapply (performEntryAction_redirect_chain
            (Some Mem.emitter) (GetStateMap (Mem.redirecting id))
            (Mem.traverser "u")
            (Mem.leaf id "start" true (Some "r1") (Some Mem.emitter)
                      (Some (Mem.traverser "u")))
            ["start"; "r1"; "r2"] "r2" _ _ 2 3 []).
  - apply Mem_traverser_StableRead.
  - run_chain.
  - reflexivity.
  - lia.
Defined.

(** C3 (as stated) fails: the chain ["start"], ["r1"], ["r2"] has two
    redirects, and entry resolution invokes three entry behaviours, not
    two. *)
Lemma performEntryAction_two_redirects_three_entries :
  let stateMap := GetStateMap (Mem.redirecting id) in
  let traverser := Mem.traverser "u" in
  let state := Mem.leaf id "start" true (Some "r1") (Some Mem.emitter) (Some traverser) in
  let w := Mem.worldWith "start" 0 1000 Minute in
  let run := Latest.performEntryAction 5 state (Some Mem.emitter) traverser
                                       stateMap (Mem.start w) in
  (exists w', RedirectChain stateMap (Some Mem.emitter) traverser state
                            ["start"; "r1"; "r2"] "r2" w w')
  /\ fst run = Ok tt
  /\ calls (snd run)
     = [EvEntry "start" false; EvCurrentState; EvEntry "r1" false;
        EvCurrentState; EvEntry "r2" false; EvCurrentState]
  /\ entryCount (calls (snd run)) = 3%nat
  /\ entryCount (calls (snd run)) <> 2%nat.
Proof.
  cbv zeta. split; [|split; [|split; [|split]]].
  - eexists. run_chain.
  - vm_compute. reflexivity.
  - vm_compute. reflexivity.
  - vm_compute. reflexivity.
  - vm_compute. discriminate.
Qed.

(** Two triggers on the scenario machine, towards ["middle"], for an
    actor in the exitable ["start"]: five nanoseconds after the last
    update the request is queued; two minutes after it the move is
    applied. *)
Lemma TriggerState_debounce_witness :
  let stateMap := GetStateMap (Mem.scenario id) in
  let trigger w :=
    Latest.TriggerState Mem.Now Mem.InputTimeout 5 "web" "u" "middle" "pay"
                        Mem.transformer Mem.store (Some Mem.emitter) stateMap
                        (Mem.start w) in
  let recent := trigger (Mem.worldWith "start" (2 * Minute - 5) (2 * Minute) Minute) in
  let old := trigger (Mem.worldWith "start" 10 (2 * Minute) Minute) in
  (fst recent = Ok tt
   /\ calls (snd recent)
      = [EvFetchTraverser "u"; EvCurrentState; EvGetLastUpdateTime; EvNow;
         EvAddQueuedState "middle" "pay"]
   /\ Mem.aState <$> Mem.actors (world (snd recent)) !! "u" = Some "start")
  /\
  (fst old = Ok tt
   /\ calls (snd old)
      = [EvFetchTraverser "u"; EvCurrentState; EvGetLastUpdateTime; EvNow;
         EvSetCurrentState "middle"; EvNow; EvSetLastUpdateTime (2 * Minute + 1);
         EvUpsert QueueInfoKey "pay"; EvEntry "middle" false; EvCurrentState]
   /\ Mem.aState <$> Mem.actors (world (snd old)) !! "u" = Some "middle").
Proof.
  cbv zeta. split.
  - edestruct (TriggerState_debounce
                 Mem.Now Mem.InputTimeout Mem.store (Some Mem.emitter)
                 (GetStateMap (Mem.scenario id)) Mem.transformer 5 "web" "u" "middle" "pay"
                 (Mem.start (Mem.worldWith "start" (2 * Minute - 5) (2 * Minute) Minute)))
      as [Hwithin _].
    1-6: holds.
    erewrite Hwithin; [| right; holds | holds ..].
    vm_compute. repeat split.
  - edestruct (TriggerState_debounce
                 Mem.Now Mem.InputTimeout Mem.store (Some Mem.emitter)
                 (GetStateMap (Mem.scenario id)) Mem.transformer 5 "web" "u" "middle" "pay"
                 (Mem.start (Mem.worldWith "start" 10 (2 * Minute) Minute)))
      as [_ Houtside].
    1-6: holds.
    feed Houtside. destruct Houtside as [_ Hknown].
    erewrite Hknown; [| holds ..].
    vm_compute. repeat split.
Defined.

(** C1 (as stated) fails: triggered for a UUID the store does not know,
    [TriggerState] reports no error at all; it has called
    [CreateTraverser], and the store now holds the actor, in the start
    state, with the request in its queue. *)
Lemma TriggerState_creates_absent_actor :
  let run :=
    Latest.TriggerState Mem.Now Mem.InputTimeout 5 "web" "u" "middle" "pay"
                        Mem.transformer Mem.store (Some Mem.emitter)
                        (GetStateMap (Mem.scenario id))
                        (Mem.start Mem.world0) in
  Mem.actors Mem.world0 !! "u" = None
  /\ fst run = Ok tt
  /\ existsb createsActor (calls (snd run)) = true
  /\ Mem.actors (world (snd run)) !! "u"
     = Some (Mem.mkActor "web" "start" 1000 [("middle", "pay")] ∅).
Proof.
  cbv zeta. repeat split; vm_compute; reflexivity.
Qed.

(** The same trigger, followed through [getTraverser]. *)
Lemma TriggerState_absent_actor_witness :
  let run :=
    Latest.TriggerState Mem.Now Mem.InputTimeout 5 "web" "u" "middle" "pay"
                        Mem.transformer Mem.store (Some Mem.emitter)
                        (GetStateMap (Mem.scenario id))
                        (Mem.start Mem.world0) in
  fst run = Ok tt
  /\ calls (snd run)
     = [EvFetchTraverser "u"; EvCreateTraverser "u"; EvSetCurrentState "start";
        EvNow; EvSetLastUpdateTime 1000; EvSetPlatform "web"; EvCurrentState;
        EvGetLastUpdateTime; EvNow; EvAddQueuedState "middle" "pay"]
  /\ Mem.aState <$> Mem.actors (world (snd run)) !! "u" = Some "start".
Proof.
  cbv zeta.
  edestruct (TriggerState_absent_actor
               Mem.Now Mem.InputTimeout Mem.store (Some Mem.emitter)
               (GetStateMap (Mem.scenario id)) Mem.transformer 5 "web" "u"
               "middle" "pay" (Mem.start Mem.world0))
    as [_ Hcreated].
  1: holds.
  erewrite Hcreated; [| holds ..].
  vm_compute. repeat split.
Defined.

(** A trigger for an actor whose timestamp was never set, with a
    debounce window longer than the clock reading: applied at once. *)
Lemma TriggerState_zero_timestamp_witness :
  let run :=
    Latest.TriggerState Mem.Now Mem.InputTimeout 5 "web" "u" "middle" "pay"
                        Mem.transformer Mem.store (Some Mem.emitter)
                        (GetStateMap (Mem.scenario id))
                        (Mem.start (Mem.worldWith "start" 0 Minute (1000 * Minute))) in
  fst run = Ok tt
  /\ calls (snd run)
     = [EvFetchTraverser "u"; EvCurrentState; EvGetLastUpdateTime;
        EvSetCurrentState "middle"; EvNow; EvSetLastUpdateTime Minute;
        EvUpsert QueueInfoKey "pay"; EvEntry "middle" false; EvCurrentState]
  /\ Mem.aState <$> Mem.actors (world (snd run)) !! "u" = Some "middle".
Proof.
  cbv zeta.
  edestruct (TriggerState_zero_timestamp
               Mem.Now Mem.InputTimeout Mem.store (Some Mem.emitter)
               (GetStateMap (Mem.scenario id)) Mem.transformer 5 "web" "u"
               "middle" "pay"
               (Mem.start (Mem.worldWith "start" 0 Minute (1000 * Minute))))
    as [_ Hknown].
  1-5: holds.
  erewrite Hknown; [| holds ..].
  vm_compute. repeat split.
Defined.

(** Triggers towards the slug ["nowhere"], which the scenario machine
    does not have: queued without complaint from the non-exitable
    ["middle"] and from a recently updated ["start"], refused once the
    window has passed. *)
Lemma TriggerState_deferred_unknown_target_witness :
  let trigger w :=
    Latest.TriggerState Mem.Now Mem.InputTimeout 5 "web" "u" "nowhere" "pay"
                        Mem.transformer Mem.store (Some Mem.emitter)
                        (GetStateMap (Mem.scenario id)) (Mem.start w) in
  let blocked := trigger (Mem.worldWith "middle" 10 (2 * Minute) Minute) in
  let recent := trigger (Mem.worldWith "start" (2 * Minute - 5) (2 * Minute) Minute) in
  let old := trigger (Mem.worldWith "start" 10 (2 * Minute) Minute) in
  (fst blocked = Ok tt
   /\ Mem.aQueue <$> Mem.actors (world (snd blocked)) !! "u"
      = Some [("nowhere", "pay")])
  /\ (fst recent = Ok tt
      /\ Mem.aQueue <$> Mem.actors (world (snd recent)) !! "u"
         = Some [("nowhere", "pay")])
  /\ fst old = Err (errNoState "nowhere").
Proof.
  cbv zeta. split; [|split].
  - edestruct (TriggerState_deferred_unknown_target
                 Mem.Now Mem.InputTimeout Mem.store (Some Mem.emitter)
                 (GetStateMap (Mem.scenario id)) Mem.transformer 5 "web" "u"
                 "nowhere" "pay"
                 (Mem.start (Mem.worldWith "middle" 10 (2 * Minute) Minute)))
      as [Hblocked _].
    1-4: holds.
    erewrite Hblocked; [| holds ..].
    vm_compute. repeat split.
  - edestruct (TriggerState_deferred_unknown_target
                 Mem.Now Mem.InputTimeout Mem.store (Some Mem.emitter)
                 (GetStateMap (Mem.scenario id)) Mem.transformer 5 "web" "u"
                 "nowhere" "pay"
                 (Mem.start (Mem.worldWith "start" (2 * Minute - 5) (2 * Minute) Minute)))
      as [_ Hexitable].
    1-4: holds.
    feed Hexitable.
    edestruct Hexitable as [Hwithin _]; [holds | holds |].
    erewrite Hwithin; [| holds ..].
    vm_compute. repeat split.
  - edestruct (TriggerState_deferred_unknown_target
                 Mem.Now Mem.InputTimeout Mem.store (Some Mem.emitter)
                 (GetStateMap (Mem.scenario id)) Mem.transformer 5 "web" "u"
                 "nowhere" "pay"
                 (Mem.start (Mem.worldWith "start" 10 (2 * Minute) Minute)))
      as [_ Hexitable].
    1-4: holds.
    feed Hexitable.
    edestruct Hexitable as [_ Houtside]; [holds | holds |].
    apply Houtside. right. vm_compute. reflexivity.
Defined.

(** C8: the failing input.  An actor recorded in the state ["gone"],
    which the scenario machine does not have: the earliest [Step] and
    the [Step] of the engine file with [EnqueueStateToUser] panic on
    the nil factory; the [Step] next to [TriggerState] returns the
    "does not exist" error. *)
Lemma Step_unknown_state_panics_in_earlier_files :
  let s : EState Mem.World string string :=
    Mem.start (Mem.worldWith "gone" 10 (2 * Minute) Minute) in
  GetStateMap (Mem.scenario (@id (Traverser Mem.World string))) !! "gone" = None
  /\ Legacy.Step 5 "web" "u" "hello" Mem.transformer Mem.store
                 (Some Mem.emitter) (GetStateMap (Mem.scenario id)) s
     = (Panic, mkES (world s) [EvFetchTraverser "u"; EvCurrentState])
  /\ Queued.Step 5 "web" "u" "hello" Mem.transformer Mem.qstore
                 (Some Mem.emitter) (GetStateMap (Mem.scenario qbase)) s
     = (Panic, mkES (world s)
                    [EvFetchTraverser "u"; EvDequeueQueuedState; EvCurrentState])
  /\ Latest.Step Mem.Now 5 "web" "u" "hello" Mem.transformer Mem.store
                 (Some Mem.emitter) (GetStateMap (Mem.scenario id)) s
     = (Err (errNoState "gone"),
        mkES (world s) [EvFetchTraverser "u"; EvCurrentState]).
Proof.
  cbv zeta. repeat split; vm_compute; reflexivity.
Qed.

(** C5 (as stated) fails.  An actor sits in the non-exitable ["middle"];
    a trigger towards ["start"] is queued; the next [Step] fetches the
    actor, reads its state, classifies the input and re-enters
    ["middle"]: the request is still in the queue, the current state is
    still ["middle"], and nothing was stashed under [QueueInfoKey]. *)
Lemma Step_leaves_deferred_request_queued :
  let stateMap := GetStateMap (Mem.scenario id) in
  let triggered :=
    Latest.TriggerState Mem.Now Mem.InputTimeout 5 "web" "u" "start" "pay"
                        Mem.transformer Mem.store (Some Mem.emitter) stateMap
                        (Mem.start (Mem.worldWith "middle" 10 (2 * Minute) Minute)) in
  let stepped :=
    Latest.Step Mem.Now 5 "web" "u" "hello" Mem.transformer Mem.store
                (Some Mem.emitter) stateMap
                (Mem.start (world (snd triggered))) in
  fst triggered = Ok tt
  /\ Mem.aQueue <$> Mem.actors (world (snd triggered)) !! "u"
     = Some [("start", "pay")]
  /\ fst stepped = Ok tt
  /\ calls (snd stepped)
     = [EvFetchTraverser "u"; EvCurrentState; EvValidIntents "middle";
        EvInputTransformer "hello"; EvEntry "middle" true]
  /\ Mem.aState <$> Mem.actors (world (snd stepped)) !! "u" = Some "middle"
  /\ Mem.aQueue <$> Mem.actors (world (snd stepped)) !! "u"
     = Some [("start", "pay")]
  /\ (fun a => Mem.aData a !! QueueInfoKey)
       <$> Mem.actors (world (snd stepped)) !! "u" = Some None.
Proof.
  cbv zeta. repeat split; vm_compute; reflexivity.
Qed.

(** On a store that serves both traverser interfaces from one queue:
    the trigger towards ["start"] is queued while the actor is in
    ["middle"], and the [Step] of the engine file with
    [EnqueueStateToUser] then dequeues it, moves the actor to ["start"]
    and stashes the payload before it resolves the active state. *)
Lemma TriggerState_defers_and_queued_Step_applies_witness :
  let triggered :=
    Latest.TriggerState Mem.Now Mem.InputTimeout 5 "web" "u" "start" "pay"
                        Mem.transformer Mem.store (Some Mem.emitter)
                        (GetStateMap (Mem.scenario id))
                        (Mem.start (Mem.worldWith "middle" 10 (2 * Minute) Minute)) in
  let stepped :=
    Queued.Step 5 "web" "u" "hello" Mem.transformer Mem.qstore
                (Some Mem.emitter) (GetStateMap (Mem.scenario qbase))
                (Mem.start (world (snd triggered))) in
  (fst triggered = Ok tt
   /\ calls (snd triggered)
      = [EvFetchTraverser "u"; EvCurrentState; EvAddQueuedState "start" "pay"]
   /\ Mem.aState <$> Mem.actors (world (snd triggered)) !! "u" = Some "middle"
   /\ Mem.aLastUpdate <$> Mem.actors (world (snd triggered)) !! "u" = Some 10)
  /\
  (fst stepped = Ok tt
   /\ calls (snd stepped)
      = [EvFetchTraverser "u"; EvDequeueQueuedState; EvSetCurrentState "start";
         EvUpsert QueueInfoKey "pay"; EvCurrentState; EvValidIntents "start";
         EvInputTransformer "hello"; EvEntry "start" true]
   /\ Mem.aState <$> Mem.actors (world (snd stepped)) !! "u" = Some "start"
   /\ Mem.aQueue <$> Mem.actors (world (snd stepped)) !! "u" = Some []
   /\ (fun a => Mem.aData a !! QueueInfoKey)
        <$> Mem.actors (world (snd stepped)) !! "u" = Some (Some "pay")).
Proof.
  cbv zeta.
  destruct (TriggerState_defers_and_queued_Step_applies
              Mem.Now Mem.InputTimeout Mem.transformer (Some Mem.emitter)
              Mem.store (GetStateMap (Mem.scenario id))
              Mem.qstore (GetStateMap (Mem.scenario qbase)))
    as (Hdefer & _ & Hdequeue & _).
  erewrite Hdefer; [| holds ..].
  split.
  - vm_compute. repeat split.
  - erewrite Hdequeue; [| holds ..].
    vm_compute. repeat split.
Defined.

(** Two steps of an actor in ["start"] on the scenario machine: the
    input ["hello"] is no intent, the input ["stay"] is an intent on
    which the transition stays.  Either way the only call after the
    classification is the re-entry of ["start"]; state and timestamp
    are what they were. *)
Lemma Step_no_intent_and_stay_reenter_witness :
  let w := Mem.worldWith "start" 10 (2 * Minute) Minute in
  let step input :=
    Latest.Step Mem.Now 5 "web" "u" input Mem.transformer Mem.store
                (Some Mem.emitter) (GetStateMap (Mem.scenario id)) (Mem.start w) in
  let legacy input :=
    Legacy.Step 5 "web" "u" input Mem.transformer Mem.store
                (Some Mem.emitter) (GetStateMap (Mem.scenario id)) (Mem.start w) in
  (step "hello" = legacy "hello"
   /\ fst (step "hello") = Ok tt
   /\ calls (snd (step "hello"))
      = [EvFetchTraverser "u"; EvCurrentState; EvValidIntents "start";
         EvInputTransformer "hello"; EvEntry "start" true]
   /\ Mem.actors (world (snd (step "hello"))) = Mem.actors w)
  /\
  (step "stay" = legacy "stay"
   /\ fst (step "stay") = Ok tt
   /\ calls (snd (step "stay"))
      = [EvFetchTraverser "u"; EvCurrentState; EvValidIntents "start";
         EvInputTransformer "stay"; EvTransition "start" "stay";
         EvEntry "start" true]
   /\ Mem.actors (world (snd (step "stay"))) = Mem.actors w).
Proof.
  cbv zeta. split.
  - edestruct (Step_no_intent_and_stay_reenter
                 Mem.Now Mem.store (Some Mem.emitter)
                 (GetStateMap (Mem.scenario id)) Mem.transformer 5 "web" "u"
                 "hello" (Mem.start (Mem.worldWith "start" 10 (2 * Minute) Minute)))
      as [Hnone _].
    1-4: holds.
    edestruct Hnone as (Hlatest & Hlegacy & _); [holds|].
    rewrite Hlatest, Hlegacy. split; [reflexivity|].
    vm_compute. repeat split.
  - edestruct (Step_no_intent_and_stay_reenter
                 Mem.Now Mem.store (Some Mem.emitter)
                 (GetStateMap (Mem.scenario id)) Mem.transformer 5 "web" "u"
                 "stay" (Mem.start (Mem.worldWith "start" 10 (2 * Minute) Minute)))
      as [_ Hstay].
    1-4: holds.
    edestruct Hstay as (Hlatest & Hlegacy & _); [holds | holds |].
    rewrite Hlatest, Hlegacy. split; [reflexivity|].
    vm_compute. repeat split.
Defined.

(** The first step of a new actor on the redirecting machine: the
    record is created and initialised, the entries of ["start"], ["r1"]
    and ["r2"] run, and only then is the input classified. *)
Lemma Step_new_actor_witness :
  let run :=
    Latest.Step Mem.Now 5 "web" "u" "hello" Mem.transformer Mem.store
                (Some Mem.emitter) (GetStateMap (Mem.redirecting id))
                (Mem.start Mem.world0) in
  fst run = Ok tt
  /\ calls (snd run)
     = [EvFetchTraverser "u"; EvCreateTraverser "u"; EvSetCurrentState "start";
        EvNow; EvSetLastUpdateTime 1000; EvSetPlatform "web"; EvCurrentState;
        EvEntry "start" false; EvCurrentState; EvEntry "r1" false;
        EvCurrentState; EvEntry "r2" false; EvCurrentState;
        EvValidIntents "start"; EvInputTransformer "hello";
        EvEntry "start" true]
  /\ Mem.actors (world (snd run)) !! "u"
     = Some (Mem.mkActor "web" "r2" 1000 [] ∅).
Proof.
  cbv zeta.
  edestruct (Step_new_actor
               Mem.Now Mem.store (Some Mem.emitter)
               (GetStateMap (Mem.redirecting id)) Mem.transformer 5 "web" "u"
               "hello" (Mem.start Mem.world0))
    as [_ Hchain].
  1-8: holds.
  edestruct Hchain as [Hrun _]; [run_chain | holds |].
  rewrite Hrun. vm_compute. repeat split.
Defined.

(** * Further properties *)

(** ** State-map compilation, continued *)
Section LastOfFilter.
Context {A : Type} (P : A -> Prop) `{!forall x, Decision (P x)}.

Lemma last_filter_Permutation (l1 l2 : list A) :
  (length (filter P l1) <= 1)%nat ->
  l1 ≡ₚ l2 ->
  last (filter P l1) = last (filter P l2).
Proof.
  intros Hlen Hperm.
  assert (Hfilter : filter P l1 ≡ₚ filter P l2) by (rewrite Hperm; reflexivity).
  destruct (filter P l1) as [|x [|y rest]]; [| |simpl in Hlen; lia].
  - apply Permutation_nil_l in Hfilter. rewrite <- Hfilter. reflexivity.
  - apply Permutation_singleton_l in Hfilter. rewrite <- Hfilter. reflexivity.
Qed.

Lemma last_filter_unique (l : list A) (x : A) :
  (length (filter P l) <= 1)%nat ->
  x ∈ l -> P x ->
  last (filter P l) = Some x.
Proof.
  intros Hlen Hin HP.
  assert (Hin' : x ∈ filter P l) by (apply list_elem_of_filter; split; assumption).
  destruct (filter P l) as [|y [|z rest]]; [inversion Hin'| |simpl in Hlen; lia].
  apply list_elem_of_singleton in Hin'. subst y. reflexivity.
Qed.

End LastOfFilter.

Section CompilationAlgebra.
Context {W Payload Intent Tr : Type}.

Abbreviation AnyFactory := (BuildState W Payload Intent Tr).
Abbreviation declares slug :=
  (fun b : AnyFactory => Slug (b None None) = slug).

Lemma GetStateMap_lookup_last (stateMachine : list AnyFactory) (slug : string) :
  GetStateMap stateMachine !! slug = last (filter (declares slug) stateMachine).
Proof.
  unfold GetStateMap. etrans; [apply compile_lookup|].
  rewrite lookup_empty. destruct (last _); reflexivity.
Qed.

Lemma declares_at_most_once (stateMachine : list AnyFactory) (slug : string) :
  NoDup (declared_slugs stateMachine) ->
  (length (filter (declares slug) stateMachine) <= 1)%nat.
Proof.
  unfold declared_slugs.
  induction stateMachine as [|b rest IH]; intros Hnd; [simpl; lia|].
  rewrite fmap_cons in Hnd. apply NoDup_cons in Hnd as [Hnotin Hnd].
  rewrite filter_cons. destruct (decide (Slug (b None None) = slug)) as [Heq|Hne].
  - assert (Hnone : filter (declares slug) rest = []).
    { destruct (filter (declares slug) rest) as [|b' more] eqn:Hfilter;
        [reflexivity|].
      assert (Hb' : b' ∈ filter (declares slug) rest)
        by (rewrite Hfilter; left).
      apply list_elem_of_filter in Hb' as [Hslug Hin].
      exfalso. apply Hnotin. apply list_elem_of_fmap. exists b'.
      split; [congruence|exact Hin]. }
    rewrite Hnone. simpl. lia.
  - apply IH. exact Hnd.
Qed.

(** X1.  Compiling the concatenation of two machines gives the union of
    the two compiled maps in which the second machine wins on every
    slug both declare. *)
Theorem GetStateMap_app (first second : StateMachine W Payload Intent Tr) :
  GetStateMap (first ++ second)%list = GetStateMap second ∪ GetStateMap first.
Proof.
  apply map_eq. intros slug.
  rewrite lookup_union, !GetStateMap_lookup_last, filter_app, last_app.
  match goal with |- _ = ?a ∪ ?b => destruct a, b end; reflexivity.
Qed.

(** X2.  For a machine in which no slug is declared twice the order of
    the factories is immaterial: every rearrangement compiles to the
    same map. *)
Theorem GetStateMap_order_insensitive (stateMachine rearranged : StateMachine W Payload Intent Tr) :
  NoDup (declared_slugs stateMachine) ->
  stateMachine ≡ₚ rearranged ->
  GetStateMap stateMachine = GetStateMap rearranged.
Proof.
  intros Hnd Hperm. apply map_eq. intros slug.
  rewrite !GetStateMap_lookup_last.
  apply last_filter_Permutation; [|exact Hperm].
  apply declares_at_most_once. exact Hnd.
Qed.

(** X3.  For a machine in which no slug is declared twice nothing is
    lost: the compiled map has as many entries as the machine has
    factories, and every factory of the machine is found under the slug
    it reports. *)
Theorem GetStateMap_keeps_every_factory (stateMachine : StateMachine W Payload Intent Tr) :
  NoDup (declared_slugs stateMachine) ->
  size (GetStateMap stateMachine) = length stateMachine
  /\ forall buildState : AnyFactory,
       buildState ∈ stateMachine ->
       GetStateMap stateMachine !! Slug (buildState None None) = Some buildState.
Proof.
  intros Hnd. split.
  - rewrite <- size_dom.
    assert (Hdom : dom (GetStateMap stateMachine)
                   = list_to_set (declared_slugs stateMachine)).
    { unfold GetStateMap, declared_slugs.
      etrans; [apply compile_dom|]. rewrite dom_empty_L. set_solver. }
    rewrite Hdom, size_list_to_set by exact Hnd.
    unfold declared_slugs. apply length_fmap.
  - intros buildState Hin. rewrite GetStateMap_lookup_last.
    apply last_filter_unique; [|exact Hin|reflexivity].
    apply declares_at_most_once. exact Hnd.
Qed.

End CompilationAlgebra.

Section Exitability.
Context {W Payload Intent : Type}.

(** X4.  On a compiled map [checkStateExitable] reports [ok] exactly
    for the slugs the machine declares; for such a slug the flag is the
    one of the last factory declaring it, read with nil collaborators,
    and for any other slug the answer is [(false, false)]. *)
Theorem checkStateExitable_compiled
        (stateMachine : StateMachine W Payload Intent (Traverser W Payload))
        (slug : string) :
  (snd (Latest.checkStateExitable slug (GetStateMap stateMachine)) = true
   <-> slug ∈ declared_slugs stateMachine)
  /\ Latest.checkStateExitable slug (GetStateMap stateMachine)
     = match last (filter (fun b : BuildState W Payload Intent (Traverser W Payload) =>
                             Slug (b None None) = slug) stateMachine) with
       | Some buildState => (IsExitable (buildState None None), true)
       | None => (false, false)
       end.
Proof.
  pose proof (GetStateMap_lookup_last stateMachine slug) as Hlook.
  unfold Latest.checkStateExitable, BuildState in *. rewrite Hlook.
  split; [|destruct (last _); reflexivity].
  destruct (last _) as [b|] eqn:Hlast; simpl.
  - split; [intros _|reflexivity].
    apply last_Some_elem_of, list_elem_of_filter in Hlast as [Hslug Hin].
    unfold declared_slugs. apply list_elem_of_fmap. exists b. split; [congruence|exact Hin].
  - split; [discriminate|]. intros Hin. exfalso.
    unfold declared_slugs in Hin.
    apply list_elem_of_fmap in Hin as (b & Hslug & Hin).
    apply last_None in Hlast.
    apply (filter_nil_not_elem_of _ _ b Hlast); [symmetry; exact Hslug|exact Hin].
Qed.

End Exitability.

(** ** The engine file with [TriggerState], continued *)
Section LatestPaths.
Context {W Payload Intent : Type}.
Variable Now : W -> Z * W.
Variable InputTimeout : W -> Z.
Variable store : Store W (Traverser W Payload).
Variable emitter : option (Emitter W Payload).
Variable stateMap : gmap string (BuildState W Payload Intent (Traverser W Payload)).
Variable inputTransformer : InputTransformer W Payload Intent.

(** X5.  [getTraverser] undoes nothing.  For an actor the store does
    not find and whose record it creates, a failure of one of the three
    writes that follow is returned with the context of that write, and
    the calls issued are exactly those up to the failing one: the
    record created before stays as it is.  When all three succeed the
    traverser is handed back marked as new. *)
Theorem getTraverser_partial_failure
        platform uuid (s : EState W Payload Intent) e0 w1 traverser w2 :
  FetchTraverser _ store uuid (world s) = (Failure e0, w1) ->
  CreateTraverser _ store uuid w1 = (Success traverser, w2) ->
  let run := Latest.getTraverser Now platform uuid store s in
  let begun : list (Event Payload Intent) :=
    (calls s ++ [EvFetchTraverser uuid; EvCreateTraverser uuid])%list in
  (forall e w3,
     SetCurrentState traverser StartState w2 = (Failure e, w3) ->
     run = (Err (Wrapf "failed to set current state to start state " e),
            mkES w3 (begun ++ [EvSetCurrentState StartState])))
  /\
  (forall w3 now w4,
     SetCurrentState traverser StartState w2 = (Success tt, w3) ->
     Now w3 = (now, w4) ->
     (forall e w5,
        SetLastUpdateTime traverser now w4 = (Failure e, w5) ->
        run = (Err (Wrapf "failed to set last update time, " e),
               mkES w5 (begun ++ [EvSetCurrentState StartState; EvNow;
                                  EvSetLastUpdateTime now])))
     /\
     (forall w5,
        SetLastUpdateTime traverser now w4 = (Success tt, w5) ->
        forall r w6,
          SetPlatform traverser platform w5 = (r, w6) ->
          run = (match r with
                 | Success _ => Ok (traverser, true)
                 | Failure e => Err (Wrapf "failed to set platform " e)
                 end,
                 mkES w6 (begun ++ [EvSetCurrentState StartState; EvNow;
                                    EvSetLastUpdateTime now;
                                    EvSetPlatform platform])))).
Proof.
  intros Hfetch Hcreate run begun. subst run begun.
  unfold Latest.getTraverser. split.
  - intros e w3 Hset. exec. trace_eq.
  - intros w3 now w4 Hset Hnow. split.
    + intros e w5 Hstamp. exec. trace_eq.
    + intros w5 Hstamp r w6 Hplat. exec. destruct r as [[]|e]; trace_eq.
Qed.

(** X6.  An actor whose recorded current state is not in the state map
    cannot be triggered: [TriggerState] returns the "does not exist"
    error for that state after two reads; nothing is enqueued and
    nothing is written, whatever the target is. *)
Theorem TriggerState_unknown_current_state
        fuel platform uuid targetState input s traverser w1 curState w2 :
  FetchTraverser _ store uuid (world s) = (Success traverser, w1) ->
  CurrentState traverser w1 = (Success curState, w2) ->
  stateMap !! curState = None ->
  Latest.TriggerState Now InputTimeout fuel platform uuid targetState input
                      inputTransformer store emitter stateMap s
  = (Err (errNoState curState),
     mkES w2 (calls s ++ [EvFetchTraverser uuid; EvCurrentState])).
Proof.
  intros Hfetch Hcur Hmap.
  unfold Latest.TriggerState, Latest.getTraverser, Latest.triggerTraverser,
    Latest.checkStateExitable.
  exec. trace_eq.
Qed.


(** X8.  A step whose input classifies to an intent on which the
    transition names a next state moves the actor: the engine sets the
    current state to the slug of that state, stamps the time, and runs
    entry resolution from it; when the entry behaviours form a redirect
    chain the step returns without error and the actor's current state
    is the slug of the last state of the chain. *)
Theorem Step_transition_moves
        fuel platform uuid input s traverser w1 curState w2 stateObj
        validIntents w3 intent params w4 newState w5 w6 now w7 w8
        entered final w9 :
  StableRead traverser ->
  FetchTraverser _ store uuid (world s) = (Success traverser, w1) ->
  CurrentState traverser w1 = (Success curState, w2) ->
  stateMap !! curState = Some stateObj ->
  ValidIntents (stateObj emitter (Some traverser)) w2 = (validIntents, w3) ->
  inputTransformer input validIntents w3 = ((Some intent, params), w4) ->
  Transition (stateObj emitter (Some traverser)) intent params w4
  = (Some newState, w5) ->
  SetCurrentState traverser (Slug newState) w5 = (Success tt, w6) ->
  Now w6 = (now, w7) ->
  SetLastUpdateTime traverser now w7 = (Success tt, w8) ->
  RedirectChain stateMap emitter traverser newState entered final w8 w9 ->
  (length entered <= fuel)%nat ->
  let active := stateObj emitter (Some traverser) in
  Latest.Step Now fuel platform uuid input inputTransformer store emitter
              stateMap s
  = (Ok tt,
     mkES w9 (calls s
                ++ [EvFetchTraverser uuid; EvCurrentState;
                    EvValidIntents (Slug active); EvInputTransformer input;
                    EvTransition (Slug active) intent;
                    EvSetCurrentState (Slug newState); EvNow;
                    EvSetLastUpdateTime now]
                ++ entryCalls entered))
  /\ CurrentState traverser w9 = (Success final, w9).
Proof.
  intros Hstable Hfetch Hcur Hmap Hvalid Hclass Hmove Hset Hnow Hstamp
         Hchain Hfuel active.
  split; [|exact (RedirectChain_final_read _ _ _ _ _ _ _ _ Hstable Hchain)].
  subst active.
  unfold Latest.Step, Latest.getTraverser, Latest.transitionBlock. exec.
  rewrite (performEntryAction_runs_chain _ _ _ _ _ _ _ _ Hchain) by exact Hfuel.
  rewrite <- !app_assoc. reflexivity.
Qed.

(** X9.  The input of a new actor is handled by the start state, also
    when entering the start state redirected the actor elsewhere: after
    entry resolution has followed the chain, the valid intents asked
    for are those of the start state and, the input being no intent,
    the state re-entered is the start state, not the state the actor is
    recorded in. *)
Theorem Step_new_actor_reenters_start
        fuel platform uuid input s e0 w1 traverser w2 w3 now w4 w5 w6 w7
        stateObj entered final w8 validIntents w9 params w10 :
  FetchTraverser _ store uuid (world s) = (Failure e0, w1) ->
  CreateTraverser _ store uuid w1 = (Success traverser, w2) ->
  SetCurrentState traverser StartState w2 = (Success tt, w3) ->
  Now w3 = (now, w4) ->
  SetLastUpdateTime traverser now w4 = (Success tt, w5) ->
  SetPlatform traverser platform w5 = (Success tt, w6) ->
  CurrentState traverser w6 = (Success StartState, w7) ->
  stateMap !! StartState = Some stateObj ->
  RedirectChain stateMap emitter traverser (stateObj emitter (Some traverser))
                entered final w7 w8 ->
  (length entered <= fuel)%nat ->
  ValidIntents (stateObj emitter (Some traverser)) w8 = (validIntents, w9) ->
  inputTransformer input validIntents w9 = ((None, params), w10) ->
  let startState := stateObj emitter (Some traverser) in
  Latest.Step Now fuel platform uuid input inputTransformer store emitter
              stateMap s
  = reenter startState
      (mkES w10 (calls s
                   ++ [EvFetchTraverser uuid; EvCreateTraverser uuid;
                       EvSetCurrentState StartState; EvNow;
                       EvSetLastUpdateTime now; EvSetPlatform platform;
                       EvCurrentState]
                   ++ entryCalls entered
                   ++ [EvValidIntents (Slug startState);
                       EvInputTransformer input])).
Proof.
  intros Hfetch Hcreate Hset Hnow Hstamp Hplat Hcur Hmap Hchain Hfuel
         Hvalid Hclass startState. subst startState.
  unfold Latest.Step, Latest.getTraverser, Latest.transitionBlock. exec.
  rewrite (performEntryAction_runs_chain _ _ _ _ _ _ _ _ Hchain) by exact Hfuel.
  exec. rewrite <- !app_assoc. reflexivity.
Qed.

End LatestPaths.

(** ** Entry resolution, continued *)
Section EntryResolution.
Context {W Payload Intent : Type}.
Variable emitter : option (Emitter W Payload).
Variable stateMap : gmap string (BuildState W Payload Intent (Traverser W Payload)).

(** X10.  An error met by entry resolution after [depth] redirects
    comes back with [depth] layers of "failed to perform recursive
    entry action" around its cause (the error of the entry behaviour
    itself is passed on as it is), after exactly [depth + 1] entry
    invocations. *)
Theorem performEntryAction_failure_context
        traverser state depth cause evs w w' (fuel : nat)
        (cs : list (Event Payload Intent)) :
  EntryFailure stateMap emitter traverser state depth cause evs w w' ->
  (depth < fuel)%nat ->
  Latest.performEntryAction fuel state emitter traverser stateMap (mkES w cs)
  = (Err (nestWrap depth "failed to perform recursive entry action, " cause),
     mkES w' (cs ++ evs))
  /\ entryCount evs = S depth.
Proof.
  intros Hfail. revert fuel cs.
  induction Hfail as [state e w w1 Hentry
                     |state e w w1 w2 Hentry Hread
                     |state next w w1 w2 Hentry Hread Hne Hmap
                     |state next shift depth cause evs w w1 w2 w3
                            Hentry Hread Hne Hmap _ IH];
    intros fuel cs Hfuel; (destruct fuel as [|fuel]; [lia|]); simpl.
  - split; [|reflexivity]. exec. reflexivity.
  - split; [|reflexivity]. exec. trace_eq.
  - split; [|reflexivity]. exec.
    destruct (decide (next = Slug state)); [congruence|]. trace_eq.
  - destruct (IH fuel ((cs ++ [EvEntry (Slug state) false]) ++ [EvCurrentState])%list)
      as [Hrun Hcount]; [lia|].
    split.
    + exec. destruct (decide (next = Slug state)); [congruence|].
      unfold bind, wrapf in Hrun. rewrite Hrun. trace_eq.
    + unfold entryCount in *. simpl. rewrite Hcount. reflexivity.
Qed.

(** X11.  Entry resolution has no bound of its own: when every state
    reached redirects again (a redirect cycle, for one), the run uses
    up whatever recursion budget it is given, invoking one entry
    behaviour per unit of budget, and never returns. *)
Theorem performEntryAction_endless_redirects
        traverser (inv : State W Intent -> W -> Prop) state w (fuel : nat)
        (cs : list (Event Payload Intent)) :
  Redirecting stateMap emitter traverser inv ->
  inv state w ->
  exists w' evs,
    Latest.performEntryAction fuel state emitter traverser stateMap (mkES w cs)
    = (OutOfFuel, mkES w' (cs ++ evs))
    /\ entryCount evs = fuel.
Proof.
  intros Hredirecting. revert state w cs.
  induction fuel as [|fuel IH]; intros state w cs Hinv.
  - exists w, []. rewrite app_nil_r. split; reflexivity.
  - destruct (Hredirecting state w Hinv)
      as (w1 & next & w2 & shift & Hentry & Hread & Hne & Hmap & Hinv').
    destruct (IH _ _ ((cs ++ [EvEntry (Slug state) false]) ++ [EvCurrentState])%list Hinv')
      as (w' & evs & Hrun & Hcount).
    exists w', (EvEntry (Slug state) false :: EvCurrentState :: evs). split.
    + simpl. exec. destruct (decide (next = Slug state)); [congruence|].
      unfold bind, wrapf in Hrun. rewrite Hrun. trace_eq.
    + unfold entryCount in *. simpl. rewrite Hcount. reflexivity.
Qed.

(** X12.  The entry resolution of the earliest engine file and the one
    next to [TriggerState] issue the same calls and leave the same
    world on every run; they return the same result except where the
    later one reports, under its layers of context, that a redirect
    names a slug outside the state map: there the earlier one panics. *)
Theorem performEntryAction_checked_vs_unchecked
        traverser (fuel : nat) state (s : EState W Payload Intent) :
  let checked := Latest.performEntryAction fuel state emitter traverser stateMap s in
  let unchecked := Legacy.performEntryAction fuel state emitter traverser stateMap s in
  snd checked = snd unchecked
  /\ (fst checked = fst unchecked
      \/ (fst unchecked = Panic
          /\ exists depth slug,
               stateMap !! slug = None
               /\ fst checked
                  = Err (nestWrap depth "failed to perform recursive entry action, "
                                  (errNoState slug)))).
Proof.
  revert state s. induction fuel as [|fuel IH]; intros state s; cbv zeta.
  - simpl. split; [reflexivity|left; reflexivity].
  - simpl. unfold bind, wrapf, call, ret, fail, panic.
    destruct (Entry state false (world s)) as [[[]|e] w1];
      cbn [world calls]; [|split; [reflexivity|left; reflexivity]].
    destruct (CurrentState traverser w1) as [[currentState|e] w2];
      [|split; [reflexivity|left; reflexivity]].
    destruct (decide (currentState = Slug state));
      [split; [reflexivity|left; reflexivity]|].
    destruct (stateMap !! currentState) as [shift|] eqn:Hmap.
    + specialize (IH (shift emitter (Some traverser))
                     (mkES w2 ((calls s ++ [EvEntry (Slug state) false])
                                 ++ [EvCurrentState])%list)).
      cbv zeta in IH. destruct IH as [Hsame Hresult].
      destruct (Latest.performEntryAction fuel _ _ _ _ _) as [r1 s1].
      destruct (Legacy.performEntryAction fuel _ _ _ _ _) as [r2 s2].
      simpl in Hsame, Hresult. subst s2.
      destruct Hresult as [->|(-> & depth & slug & Hnone & ->)].
      * destruct r2; split; try reflexivity; left; reflexivity.
      * split; [reflexivity|]. right. split; [reflexivity|].
        exists (S depth), slug. split; [exact Hnone|reflexivity].
    + split; [reflexivity|]. right. split; [reflexivity|].
      exists 0%nat, currentState. split; [exact Hmap|reflexivity].
Qed.

End EntryResolution.

(** ** What the drivers never call *)
Section Reach.
Context {W Payload Intent : Type}.
Variable Now : W -> Z * W.
Variable InputTimeout : W -> Z.
Variable allowed : Event Payload Intent -> bool.
Hypothesis allowed_entry : forall slug, allowed (EvEntry slug false) = true.
Hypothesis allowed_read : allowed EvCurrentState = true.

Lemma performEntryAction_issues_when fuel state emitter
      (traverser : Traverser W Payload)
      (stateMap : gmap string (BuildState W Payload Intent (Traverser W Payload))) :
  issues allowed (Latest.performEntryAction fuel state emitter traverser stateMap).
Proof.
  revert state. induction fuel as [|fuel IH]; intros state; simpl.
  - apply issues_out_of_fuel.
  - apply issues_bind; [apply issues_call, allowed_entry|]. intros _.
    apply issues_bind; [apply issues_wrapf, issues_call, allowed_read|].
    intros currentState.
    destruct (decide (currentState = Slug state)); [apply issues_ret|].
    destruct (stateMap !! currentState); [|apply issues_fail].
    apply issues_wrapf, IH.
Qed.

Hypothesis allowed_fetch : forall uuid, allowed (EvFetchTraverser uuid) = true.
Hypothesis allowed_create : forall uuid, allowed (EvCreateTraverser uuid) = true.
Hypothesis allowed_set : forall slug, allowed (EvSetCurrentState slug) = true.
Hypothesis allowed_now : allowed EvNow = true.
Hypothesis allowed_stamp : forall t, allowed (EvSetLastUpdateTime t) = true.
Hypothesis allowed_platform : forall p, allowed (EvSetPlatform p) = true.

Lemma getTraverser_issues_when platform uuid (store : Store W (Traverser W Payload)) :
  issues allowed (Latest.getTraverser Now platform uuid store).
Proof.
  intros s. unfold Latest.getTraverser.
  destruct (issues_call allowed (EvFetchTraverser uuid)
                        (FetchTraverser _ store uuid) (allowed_fetch uuid) s)
    as (evs & Hcalls & Hall).
  destruct (call _ _ s) as [[traverser|e| |] s1]; simpl in Hcalls;
    try (exists evs; split; [exact Hcalls|exact Hall]).
  match goal with
  | |- context [bind ?m ?k s1] =>
      assert (Hrest : issues allowed (bind m k))
  end.
  { apply issues_bind; [apply issues_wrapf, issues_call, allowed_create|].
    intros traverser.
    apply issues_bind; [apply issues_wrapf, issues_call, allowed_set|]. intros _.
    apply issues_bind; [apply issues_callT, allowed_now|]. intros now.
    apply issues_bind; [apply issues_wrapf, issues_call, allowed_stamp|]. intros _.
    apply issues_bind; [apply issues_wrapf, issues_call, allowed_platform|]. intros _.
    apply issues_ret. }
  destruct (Hrest s1) as (evs' & Hcalls' & Hall').
  exists (evs ++ evs')%list. rewrite Hcalls', Hcalls, app_assoc.
  split; [reflexivity|]. rewrite forallb_app, Hall, Hall'. reflexivity.
Qed.

Hypothesis allowed_enqueue :
  forall target info, allowed (EvAddQueuedState target info) = true.
Hypothesis allowed_last : allowed EvGetLastUpdateTime = true.
Hypothesis allowed_stash :
  forall info, allowed (EvUpsert QueueInfoKey info) = true.

Lemma TriggerState_issues_when fuel platform uuid targetState input
      inputTransformer (store : Store W (Traverser W Payload)) emitter
      (stateMap : gmap string (BuildState W Payload Intent (Traverser W Payload))) :
  issues allowed (Latest.TriggerState Now InputTimeout fuel platform uuid
                                      targetState input inputTransformer
                                      store emitter stateMap).
Proof.
  unfold Latest.TriggerState.
  apply issues_bind; [apply issues_wrapf, getTraverser_issues_when|].
  intros [traverser newTraverser]. unfold Latest.triggerTraverser.
  apply issues_bind; [apply issues_wrapf, issues_call, allowed_read|].
  intros curState.
  destruct (Latest.checkStateExitable curState stateMap) as [canExit ok].
  destruct ok; [|apply issues_fail]. cbn [negb].
  assert (Henqueue : issues allowed
            (wrapf "failed to enqueue state, "
               (call (EvAddQueuedState targetState input)
                     (AddQueuedState traverser targetState input)
                : M W Payload Intent unit)))
    by apply issues_wrapf, issues_call, allowed_enqueue.
  destruct canExit; cbn [negb]; [|exact Henqueue].
  apply issues_bind; [apply issues_wrapf, issues_call, allowed_last|].
  intros lastUpdate.
  match goal with
  | |- issues _ (if _ then _ else ?handle) =>
      assert (Hhandle : issues allowed handle)
  end.
  { destruct (stateMap !! targetState); [|apply issues_fail].
    apply issues_bind; [apply issues_wrapf, issues_call, allowed_set|]. intros _.
    apply issues_bind; [apply issues_callT, allowed_now|]. intros now.
    apply issues_bind; [apply issues_wrapf, issues_call, allowed_stamp|]. intros _.
    apply issues_bind; [apply issues_wrapf, issues_call, allowed_stash|]. intros _.
    apply issues_wrapf, performEntryAction_issues_when. }
  destruct (negb (IsZero lastUpdate)); [|exact Hhandle].
  apply issues_bind; [apply issues_callT, allowed_now|]. intros now.
  apply issues_bind; [apply issues_readVar|]. intros timeout.
  destruct (negb (After now (Add lastUpdate timeout)));
    [exact Henqueue|exact Hhandle].
Qed.

End Reach.

Section Never.
Context {W Payload Intent : Type}.
Variable Now : W -> Z * W.
Variable InputTimeout : W -> Z.
Variable store : Store W (Traverser W Payload).
Variable emitter : option (Emitter W Payload).
Variable stateMap : gmap string (BuildState W Payload Intent (Traverser W Payload)).
Variable inputTransformer : InputTransformer W Payload Intent.

(** X13.  Whatever the store, the states and the transformer do, a
    [Step] of the engine file with [TriggerState] only adds to the
    calls made so far, and what it adds are calls of [stepCall]: it
    never reads the last-update timestamp, never writes the data bag,
    and never enqueues or dequeues a deferred request. *)
Theorem Step_calls_only_stepCall fuel platform uuid input
        (s : EState W Payload Intent) :
  let after :=
    calls (snd (Latest.Step Now fuel platform uuid input inputTransformer
                            store emitter stateMap s)) in
  take (length (calls s)) after = calls s
  /\ forallb stepCall (drop (length (calls s)) after) = true.
Proof.
  cbv zeta.
  destruct (Step_issues Now fuel platform uuid input inputTransformer store
                        emitter stateMap s) as (evs & -> & Hall).
  rewrite take_app_length, drop_app_length. split; [reflexivity|exact Hall].
Qed.

(** X14.  Whatever the collaborators do, [TriggerState] only adds to
    the calls made so far, and what it adds are calls of [triggerCall]:
    it never asks a state for its valid intents, never calls the input
    transformer it is handed nor a transition, never re-enters a state
    ([isReentry] is always false), never dequeues, and the only key of
    the data bag it writes is [QueueInfoKey]. *)
Theorem TriggerState_calls_only_triggerCall fuel platform uuid targetState input
        (s : EState W Payload Intent) :
  let after :=
    calls (snd (Latest.TriggerState Now InputTimeout fuel platform uuid
                                    targetState input inputTransformer store
                                    emitter stateMap s)) in
  take (length (calls s)) after = calls s
  /\ forallb triggerCall (drop (length (calls s)) after) = true.
Proof.
  cbv zeta.
  destruct (TriggerState_issues_when
              Now InputTimeout triggerCall
              (fun _ => eq_refl) eq_refl (fun _ => eq_refl) (fun _ => eq_refl)
              (fun _ => eq_refl) eq_refl (fun _ => eq_refl) (fun _ => eq_refl)
              (fun _ _ => eq_refl) eq_refl (fun _ => eq_refl)
              fuel platform uuid targetState input inputTransformer store
              emitter stateMap s) as (evs & -> & Hall).
  rewrite take_app_length, drop_app_length. split; [reflexivity|exact Hall].
Qed.

End Never.

(** ** The engine file with [EnqueueStateToUser], continued *)
Section QueuedPaths.
Context {W Payload Intent : Type}.
Variable qstore : Store W (QTraverser W Payload).
Variable emitter : option (Emitter W Payload).
Variable qstateMap : gmap string (BuildState W Payload Intent (QTraverser W Payload)).
Variable inputTransformer : InputTransformer W Payload Intent.

(** X15.  [EnqueueStateToUser] only queues.  For an actor the store
    finds it issues the fetch and the enqueue, nothing else; for one it
    does not find it first creates the record, puts it in the start
    state and records the platform (no timestamp is written), and then
    enqueues.  Either way the result is that of the enqueue, an error
    being returned with context; no entry behaviour runs and the
    current state of an existing actor is not touched. *)
Theorem EnqueueStateToUser_only_queues platform uuid state input
        (s : EState W Payload Intent) :
  let run := Queued.EnqueueStateToUser platform uuid state input qstore s in
  let outcomeOf (r : result unit) : outcome unit :=
    match r with
    | Success _ => Ok tt
    | Failure e => Err (Wrapf "failed to enqueue state to user, " e)
    end in
  (forall traverser w1 r w2,
     FetchTraverser _ qstore uuid (world s) = (Success traverser, w1) ->
     EnqueueQueuedState traverser state input w1 = (r, w2) ->
     run = (outcomeOf r,
            mkES w2 (calls s ++ [EvFetchTraverser uuid;
                                 EvEnqueueQueuedState state input])))
  /\
  (forall e0 w1 traverser w2 w3 w4 r w5,
     FetchTraverser _ qstore uuid (world s) = (Failure e0, w1) ->
     CreateTraverser _ qstore uuid w1 = (Success traverser, w2) ->
     SetCurrentState (qbase traverser) StartState w2 = (Success tt, w3) ->
     SetPlatform (qbase traverser) platform w3 = (Success tt, w4) ->
     EnqueueQueuedState traverser state input w4 = (r, w5) ->
     run = (outcomeOf r,
            mkES w5 (calls s ++ [EvFetchTraverser uuid; EvCreateTraverser uuid;
                                 EvSetCurrentState StartState;
                                 EvSetPlatform platform;
                                 EvEnqueueQueuedState state input]))).
Proof.
  cbv zeta. unfold Queued.EnqueueStateToUser, Queued.fetchOrCreate. split.
  - intros traverser w1 r w2 Hfetch Henq. exec. destruct r as [[]|e]; trace_eq.
  - intros e0 w1 traverser w2 w3 w4 r w5 Hfetch Hcreate Hset Hplat Henq.
    exec. destruct r as [[]|e]; trace_eq.
Qed.

(** X16.  The queue is consulted for actors that already existed only:
    for an actor it has just created, the [Step] of this file goes from
    the creation writes straight to the read of the current state and
    to entry resolution; no request is dequeued, whatever the queue
    holds, and no timestamp is written. *)
Theorem Queued_Step_new_actor_skips_queue
        fuel platform uuid input (s : EState W Payload Intent)
        e0 w1 traverser w2 w3 w4 curState w5 stateObj :
  FetchTraverser _ qstore uuid (world s) = (Failure e0, w1) ->
  CreateTraverser _ qstore uuid w1 = (Success traverser, w2) ->
  SetCurrentState (qbase traverser) StartState w2 = (Success tt, w3) ->
  SetPlatform (qbase traverser) platform w3 = (Success tt, w4) ->
  CurrentState (qbase traverser) w4 = (Success curState, w5) ->
  qstateMap !! curState = Some stateObj ->
  Queued.Step fuel platform uuid input inputTransformer qstore emitter
              qstateMap s
  = (_ <- wrapf "failed to perform action entry, "
            (Queued.performEntryAction fuel (stateObj emitter (Some traverser))
                                       emitter traverser qstateMap) ;;
     Queued.transitionBlock fuel (stateObj emitter (Some traverser)) input
                            inputTransformer emitter traverser qstateMap)
      (mkES w5 (calls s ++ [EvFetchTraverser uuid; EvCreateTraverser uuid;
                            EvSetCurrentState StartState;
                            EvSetPlatform platform; EvCurrentState])).
Proof.
  intros Hfetch Hcreate Hset Hplat Hcur Hmap.
  unfold Queued.Step, Queued.fetchOrCreate. exec.
  rewrite <- !app_assoc. reflexivity.
Qed.

End QueuedPaths.

(** ** The further properties on the in-memory store *)

(** The scenario machine and the same machine listed backwards. *)
Lemma GetStateMap_order_insensitive_witness :
  GetStateMap (Mem.scenario (@id (Traverser Mem.World string)))
  = GetStateMap (reverse (Mem.scenario id)).
Proof.
  apply GetStateMap_order_insensitive.
  - apply (bool_decide_unpack _). vm_compute. exact I.
  - symmetry. apply reverse_Permutation.
Defined.

Lemma GetStateMap_keeps_every_factory_witness :
  size (GetStateMap (Mem.redirecting (@id (Traverser Mem.World string)))) = 3%nat
  /\ GetStateMap (Mem.redirecting (@id (Traverser Mem.World string))) !! "r1"
     = Some (Mem.leaf id "r1" true (Some "r2")).
Proof.
  destruct (GetStateMap_keeps_every_factory
              (Mem.redirecting (@id (Traverser Mem.World string))))
    as [Hsize Hfound].
  - apply (bool_decide_unpack _). vm_compute. exact I.
  - split; [exact Hsize|].
    apply (Hfound (Mem.leaf id "r1" true (Some "r2"))).
    right. left.
Defined.

(** A first contact on the store that cannot record platforms: the
    error names the write that failed, and the record created before it
    is left in the store, in the start state and stamped. *)
Lemma getTraverser_partial_failure_witness :
  let run :=
    Latest.getTraverser Mem.Now "web" "u" Mem.platformlessStore
                        (Mem.start (A := string) Mem.world0) in
  fst run = Err (Wrapf "failed to set platform "
                       (ErrCollab "platform is read-only"))
  /\ calls (snd run)
     = [EvFetchTraverser "u"; EvCreateTraverser "u"; EvSetCurrentState "start";
        EvNow; EvSetLastUpdateTime 1000; EvSetPlatform "web"]
  /\ Mem.actors (world (snd run)) !! "u"
     = Some (Mem.mkActor "" "start" 1000 [] ∅).
Proof.
  cbv zeta.
  edestruct (getTraverser_partial_failure
               (Intent := string) Mem.Now Mem.platformlessStore "web" "u"
               (Mem.start Mem.world0))
    as [_ Hwritten].
  1-2: holds.
  edestruct Hwritten as [_ Hstamped]; [holds | holds |].
  erewrite Hstamped; [| holds ..].
  vm_compute. repeat split.
Defined.

Lemma TriggerState_unknown_current_state_witness :
  Latest.TriggerState Mem.Now Mem.InputTimeout 5 "web" "u" "start" "pay"
                      Mem.transformer Mem.store (Some Mem.emitter)
                      (GetStateMap (Mem.scenario id))
                      (Mem.start (Mem.worldWith "gone" 0 (2 * Minute) Minute))
  = (Err (errNoState "gone"),
     mkES (Mem.worldWith "gone" 0 (2 * Minute) Minute)
          [EvFetchTraverser "u"; EvCurrentState]).
Proof.
  erewrite TriggerState_unknown_current_state; [| holds ..].
  vm_compute. reflexivity.
Defined.


(** The step ["A"] of the scenario: from ["start"] to ["middle"]. *)
Lemma Step_transition_moves_witness :
  let run :=
    Latest.Step Mem.Now 5 "web" "u" "A" Mem.transformer Mem.store
                (Some Mem.emitter) (GetStateMap (Mem.scenario id))
                (Mem.start (Mem.worldWith "start" 10 (2 * Minute) Minute)) in
  fst run = Ok tt
  /\ calls (snd run)
     = [EvFetchTraverser "u"; EvCurrentState; EvValidIntents "start";
        EvInputTransformer "A"; EvTransition "start" "A";
        EvSetCurrentState "middle"; EvNow; EvSetLastUpdateTime (2 * Minute);
        EvEntry "middle" false; EvCurrentState]
  /\ CurrentState (Mem.traverser "u") (world (snd run))
     = (Success "middle", world (snd run)).
Proof.
  cbv zeta.
  edestruct (Step_transition_moves
               Mem.Now Mem.store (Some Mem.emitter)
               (GetStateMap (Mem.scenario id)) Mem.transformer 5 "web" "u" "A"
               (Mem.start (Mem.worldWith "start" 10 (2 * Minute) Minute))
               (Mem.traverser "u"))
    as [Hrun Hfinal].
  1: apply Mem_traverser_StableRead.
  1-9: holds.
  1: run_chain.
  1: holds.
  rewrite Hrun. cbn [fst snd world calls].
  split; [reflexivity|]. split; [vm_compute; reflexivity|exact Hfinal].
Defined.

(** The first step of a new actor on the redirecting machine ends by
    re-entering ["start"], with the actor recorded in ["r2"]. *)
Lemma Step_new_actor_reenters_start_witness :
  let run :=
    Latest.Step Mem.Now 5 "web" "u" "hello" Mem.transformer Mem.store
                (Some Mem.emitter) (GetStateMap (Mem.redirecting id))
                (Mem.start Mem.world0) in
  last (calls (snd run)) = Some (EvEntry "start" true)
  /\ Mem.aState <$> Mem.actors (world (snd run)) !! "u" = Some "r2".
Proof.
  cbv zeta.
  erewrite (Step_new_actor_reenters_start
              Mem.Now Mem.store (Some Mem.emitter)
              (GetStateMap (Mem.redirecting id)) Mem.transformer 5 "web" "u"
              "hello" (Mem.start Mem.world0)); cycle 1.
  1-8: holds.
  1: run_chain.
  1-3: holds.
  vm_compute. repeat split.
Defined.

Ltac run_failure :=
  repeat first
    [ eapply fails_lookup; [holds | holds | holds | holds]
    | eapply fails_deeper; [holds | holds | holds | holds | ] ].

(** On the machine whose ["r1"] redirects to a slug no factory reports,
    the error comes back from one level down. *)
Lemma performEntryAction_failure_context_witness :
  exists w',
    Latest.performEntryAction
      5 (Mem.leaf id "start" true (Some "r1") (Some Mem.emitter)
                  (Some (Mem.traverser "u")))
      (Some Mem.emitter) (Mem.traverser "u") (GetStateMap (Mem.dangling id))
      (mkES (Mem.worldWith "start" 0 1000 Minute) [])
    = (Err (nestWrap 1 "failed to perform recursive entry action, "
                     (errNoState "missing")),
       mkES w' ([] ++ [EvEntry "start" false; EvCurrentState;
                       EvEntry "r1" false; EvCurrentState]))
    /\ entryCount (Payload := string) (Intent := string)
                  [EvEntry "start" false; EvCurrentState;
                   EvEntry "r1" false; EvCurrentState] = 2%nat.
Proof.
  eexists.
  eapply (performEntryAction_failure_context
            (Some Mem.emitter) (GetStateMap (Mem.dangling id))
            (Mem.traverser "u")).
  - run_failure.
  - lia.
Defined.

(** On the cycling machine every entry redirects, as long as the actor
    is in the store. *)
Lemma Mem_cycling_Redirecting :
  Redirecting
    (GetStateMap (Mem.cycling id)) (Some Mem.emitter) (Mem.traverser "u")
    (fun state w =>
       is_Some (Mem.actors w !! "u")
       /\ (state = Mem.leaf id "start" true (Some "loop") (Some Mem.emitter)
                            (Some (Mem.traverser "u"))
           \/ state = Mem.leaf id "loop" true (Some "start") (Some Mem.emitter)
                               (Some (Mem.traverser "u")))).
Proof.
  intros state w [[a Ha] [-> | ->]].
  - eexists _, "loop", _, (Mem.leaf id "loop" true (Some "start")).
    split; [|split; [|split; [|split]]].
    + cbn -[lookup insert]. unfold Mem.update. cbn -[lookup insert].
      rewrite Ha. reflexivity.
    + cbn -[lookup insert]. unfold Mem.read. cbn -[lookup insert].
      rewrite lookup_insert_eq. reflexivity.
    + discriminate.
    + reflexivity.
    + split; [|right; reflexivity].
      cbn -[lookup insert]. rewrite lookup_insert_eq. eexists. reflexivity.
  - eexists _, "start", _, (Mem.leaf id "start" true (Some "loop")).
    split; [|split; [|split; [|split]]].
    + cbn -[lookup insert]. unfold Mem.update. cbn -[lookup insert].
      rewrite Ha. reflexivity.
    + cbn -[lookup insert]. unfold Mem.read. cbn -[lookup insert].
      rewrite lookup_insert_eq. reflexivity.
    + discriminate.
    + reflexivity.
    + split; [|left; reflexivity].
      cbn -[lookup insert]. rewrite lookup_insert_eq. eexists. reflexivity.
Qed.

(** Seven units of budget on the cycling machine: seven entries, no
    return. *)
Lemma performEntryAction_endless_redirects_witness :
  exists w' evs,
    Latest.performEntryAction
      7 (Mem.leaf id "start" true (Some "loop") (Some Mem.emitter)
                  (Some (Mem.traverser "u")))
      (Some Mem.emitter) (Mem.traverser "u") (GetStateMap (Mem.cycling id))
      (mkES (Mem.worldWith "start" 0 1000 Minute) [])
    = (OutOfFuel, mkES w' ([] ++ evs))
    /\ entryCount (Payload := string) (Intent := string) evs = 7%nat.
Proof.
  eapply (performEntryAction_endless_redirects
            (Some Mem.emitter) (GetStateMap (Mem.cycling id))
            (Mem.traverser "u") _ _ _ 7 [] Mem_cycling_Redirecting).
  split; [|left; reflexivity].
  eexists. vm_compute. reflexivity.
Defined.

(** Queueing a request for a known and for an unknown actor. *)
Lemma EnqueueStateToUser_only_queues_witness :
  let known :=
    Queued.EnqueueStateToUser "web" "u" "start" "pay" Mem.qstore
      (Mem.start (A := string) (Mem.worldWith "middle" 10 (2 * Minute) Minute)) in
  let unknown :=
    Queued.EnqueueStateToUser "web" "u" "middle" "pay" Mem.qstore
      (Mem.start (A := string) Mem.world0) in
  (fst known = Ok tt
   /\ Mem.actors (world (snd known)) !! "u"
      = Some (Mem.mkActor "web" "middle" 10 [("start", "pay")] ∅))
  /\ (fst unknown = Ok tt
      /\ Mem.actors (world (snd unknown)) !! "u"
         = Some (Mem.mkActor "web" "start" 0 [("middle", "pay")] ∅)).
Proof.
  cbv zeta. split.
  - edestruct (EnqueueStateToUser_only_queues
                 (Intent := string) Mem.qstore "web" "u" "start" "pay"
                 (Mem.start (Mem.worldWith "middle" 10 (2 * Minute) Minute)))
      as [Hknown _].
    erewrite Hknown; [| holds ..].
    vm_compute. repeat split.
  - edestruct (EnqueueStateToUser_only_queues
                 (Intent := string) Mem.qstore "web" "u" "middle" "pay"
                 (Mem.start Mem.world0))
      as [_ Hunknown].
    erewrite Hunknown; [| holds ..].
    vm_compute. repeat split.
Defined.

(** A first step through the queue-capable [Step]: the actor is created
    and entered into ["start"]; the queue is not asked. *)
Lemma Queued_Step_new_actor_skips_queue_witness :
  let run :=
    Queued.Step 5 "web" "u" "hello" Mem.transformer Mem.qstore
                (Some Mem.emitter) (GetStateMap (Mem.scenario qbase))
                (Mem.start Mem.world0) in
  fst run = Ok tt
  /\ calls (snd run)
     = [EvFetchTraverser "u"; EvCreateTraverser "u"; EvSetCurrentState "start";
        EvSetPlatform "web"; EvCurrentState; EvEntry "start" false;
        EvCurrentState; EvValidIntents "start"; EvInputTransformer "hello";
        EvEntry "start" true]
  /\ Mem.aLastUpdate <$> Mem.actors (world (snd run)) !! "u" = Some 0.
Proof.
  cbv zeta.
  erewrite (Queued_Step_new_actor_skips_queue
              Mem.qstore (Some Mem.emitter) (GetStateMap (Mem.scenario qbase))
              Mem.transformer 5 "web" "u" "hello" (Mem.start Mem.world0));
    cycle 1.
  1-6: holds.
  vm_compute. repeat split.
Defined.

Section UnknownState.
Context {W Payload Intent : Type}.
Variable Now : W -> Z * W.
Variable store : Store W (Traverser W Payload).
Variable emitter : option (Emitter W Payload).
Variable stateMap : gmap string (BuildState W Payload Intent (Traverser W Payload)).
Variable inputTransformer : InputTransformer W Payload Intent.

(** X17.  With the lookup checked, a current state outside the state
    map ends this [Step] with the "does not exist" error before any
    state is built: for an existing actor nothing has been written, and
    for a new actor on a machine without the start state the record has
    been created and initialised but no entry behaviour has run and the
    input has not been classified. *)
Theorem Step_unknown_state_is_an_error fuel platform uuid input
        (s : EState W Payload Intent) :
  let run :=
    Latest.Step Now fuel platform uuid input inputTransformer store emitter
                stateMap s in
  (forall traverser w1 curState w2,
     FetchTraverser _ store uuid (world s) = (Success traverser, w1) ->
     CurrentState traverser w1 = (Success curState, w2) ->
     stateMap !! curState = None ->
     run = (Err (errNoState curState),
            mkES w2 (calls s ++ [EvFetchTraverser uuid; EvCurrentState])))
  /\
  (forall e0 w1 traverser w2 w3 now w4 w5 w6 w7,
     FetchTraverser _ store uuid (world s) = (Failure e0, w1) ->
     CreateTraverser _ store uuid w1 = (Success traverser, w2) ->
     SetCurrentState traverser StartState w2 = (Success tt, w3) ->
     Now w3 = (now, w4) ->
     SetLastUpdateTime traverser now w4 = (Success tt, w5) ->
     SetPlatform traverser platform w5 = (Success tt, w6) ->
     CurrentState traverser w6 = (Success StartState, w7) ->
     stateMap !! StartState = None ->
     run = (Err (errNoState StartState),
            mkES w7 (calls s ++ [EvFetchTraverser uuid; EvCreateTraverser uuid;
                                 EvSetCurrentState StartState; EvNow;
                                 EvSetLastUpdateTime now;
                                 EvSetPlatform platform; EvCurrentState]))).
Proof.
  cbv zeta. unfold Latest.Step, Latest.getTraverser. split.
  - intros traverser w1 curState w2 Hfetch Hcur Hmap. exec. trace_eq.
  - intros e0 w1 traverser w2 w3 now w4 w5 w6 w7
           Hfetch Hcreate Hset Hnow Hstamp Hplat Hcur Hmap.
    exec. trace_eq.
Qed.

End UnknownState.

(** A first step on the machine that declares ["a"] and ["b"] but no
    ["start"]. *)
Lemma Step_unknown_state_is_an_error_witness :
  let run :=
    Latest.Step Mem.Now 5 "web" "u" "hello" Mem.transformer Mem.store
                (Some Mem.emitter) (GetStateMap (Mem.duplicated id))
                (Mem.start Mem.world0) in
  fst run = Err (errNoState "start")
  /\ Mem.actors (world (snd run)) !! "u"
     = Some (Mem.mkActor "web" "start" 1000 [] ∅)
  /\ entryCount (calls (snd run)) = 0%nat.
Proof.
  cbv zeta.
  edestruct (Step_unknown_state_is_an_error
               Mem.Now Mem.store (Some Mem.emitter)
               (GetStateMap (Mem.duplicated id)) Mem.transformer 5 "web" "u"
               "hello" (Mem.start Mem.world0))
    as [_ Hnew].
  erewrite Hnew; [| holds ..].
  vm_compute. repeat split.
Defined.
